(** * A shallow embedding of the novel-to-e-book pipeline

    The pipeline is a handful of Python scripts: [analyze_chapters.py]
    (numeral parser, marker scanner, index builder), [clean_text.py]
    (normalizer), [extract_chapters.py] (slicer),
    [md/process_chapters_reusable.py] (paragraph reflow) and
    [process_chapters_batch.py] (ledger-driven batch driver).

    Python [str] values are sequences of Unicode code points, and the
    scripts depend on that ([len], indexing, [\s], [\d]), so a string is
    modelled as a list of code points and not as a list of bytes. *)

From Stdlib Require Import ZArith NArith List Bool Lia Ascii String.
From stdpp Require Import base tactics option list gmap sorting.

Local Open Scope N_scope.

(** ** The Python string runtime the scripts rely on *)

Module Py.

Definition char := N.
Definition str := list N.

(** Decoding of the UTF-8 bytes of a literal, so that the constants of the
    scripts can be written as they are in the source. *)
Fixpoint utf8_decode (bs : list N) : str :=
  match bs with
  | [] => []
  | b0 :: r0 =>
    if b0 <? 128 then b0 :: utf8_decode r0
    else if b0 <? 224 then
      match r0 with
      | b1 :: r1 => ((b0 mod 32) * 64 + b1 mod 64) :: utf8_decode r1
      | _ => []
      end
    else if b0 <? 240 then
      match r0 with
      | b1 :: b2 :: r2 =>
        ((b0 mod 16) * 4096 + (b1 mod 64) * 64 + b2 mod 64) :: utf8_decode r2
      | _ => []
      end
    else
      match r0 with
      | b1 :: b2 :: b3 :: r3 =>
        ((b0 mod 8) * 262144 + (b1 mod 64) * 4096 + (b2 mod 64) * 64 + b3 mod 64)
          :: utf8_decode r3
      | _ => []
      end
  end.

Definition u (s : string) : str :=
  utf8_decode (map N_of_ascii (list_ascii_of_string s)).

(** The first code point of a literal: a character constant. *)
Definition ch (s : string) : char := hd 0 (u s).

Definition LF : char := 10.
Definition CR : char := 13.
Definition TAB : char := 9.
Definition SP : char := 32.

(** [str.isspace] on one character, which is also what [\s] matches in a
    [str] pattern and what [str.strip()] removes. *)
Definition isspace (c : char) : bool :=
  ((9 <=? c) && (c <=? 13)) || ((28 <=? c) && (c <=? 32))
  || (c =? 133) || (c =? 160) || (c =? 5760)
  || ((8192 <=? c) && (c <=? 8202))
  || (c =? 8232) || (c =? 8233) || (c =? 8239) || (c =? 8287)
  || (c =? 12288).

(** The zero digits of the Unicode decimal-digit blocks (category Nd):
    each block is ten consecutive code points. *)
Definition nd_zeros : list N :=
  [ 0x30; 0x660; 0x6F0; 0x7C0; 0x966; 0x9E6; 0xA66; 0xAE6; 0xB66; 0xBE6;
    0xC66; 0xCE6; 0xD66; 0xDE6; 0xE50; 0xED0; 0xF20; 0x1040; 0x1090;
    0x17E0; 0x1810; 0x1946; 0x19D0; 0x1A80; 0x1A90; 0x1B50; 0x1BB0;
    0x1C40; 0x1C50; 0xA620; 0xA8D0; 0xA900; 0xA9D0; 0xA9F0; 0xAA50;
    0xABF0; 0xFF10; 0x104A0; 0x10D30; 0x11066; 0x110F0; 0x11136;
    0x111D0; 0x112F0; 0x11450; 0x114D0; 0x11650; 0x116C0; 0x11730;
    0x118E0; 0x11950; 0x11C50; 0x11D50; 0x11DA0; 0x11F50; 0x16A60;
    0x16AC0; 0x16B50; 0x1D7CE; 0x1D7D8; 0x1D7E2; 0x1D7EC; 0x1D7F6;
    0x1E140; 0x1E2F0; 0x1E4F0; 0x1E950; 0x1FBF0 ].

(** The value of a decimal digit, [None] for any other character. *)
Definition digit_value (c : char) : option N :=
  match filter (fun z => (z <=? c) && (c <? z + 10)) nd_zeros with
  | z :: _ => Some (c - z)
  | [] => None
  end.

(** [\d] in a [str] pattern. *)
Definition isdecimal (c : char) : bool :=
  match digit_value c with Some _ => true | None => false end.

(** ASCII digits: the class [[0-9]]. *)
Definition is_ascii_digit (c : char) : bool := (48 <=? c) && (c <=? 57).

(** [s.isdigit()]: non-empty and made of digits.  The characters that are
    digits for [isdigit] but not decimal (superscripts and the like, on which
    [int] raises) cannot reach the code that calls it here: every caller
    passes a group matched by a class of ASCII digits and Chinese numerals. *)
Definition isdigit (s : str) : bool :=
  match s with [] => false | _ => forallb isdecimal s end.

(** [int(s)] for a string of decimal digits. *)
Definition int_digits (s : str) : Z :=
  Z.of_N (fold_left (fun acc c => acc * 10 + default 0 (digit_value c)) s 0).

(** [str(n)] for a natural number. *)
Fixpoint digits_fuel (fuel : nat) (n : N) (acc : str) : str :=
  match fuel with
  | O => acc
  | S f =>
    let acc' := (48 + n mod 10) :: acc in
    if n <? 10 then acc' else digits_fuel f (n / 10) acc'
  end.

Definition str_of_N (n : N) : str := digits_fuel (S (N.to_nat (N.log2 n))) n [].

(** [str(z)] for an integer. *)
Definition str_of_Z (z : Z) : str :=
  match z with
  | Zneg p => 45 :: str_of_N (Npos p)
  | _ => str_of_N (Z.to_N z)
  end.

(** [f"{z:02d}"]: zero padding to width two, the sign counted in. *)
Definition fmt_02d (z : Z) : str :=
  match z with
  | Zneg p => 45 :: str_of_N (Npos p)
  | _ => let d := str_of_N (Z.to_N z) in
         match d with [_] => 48 :: d | _ => d end
  end.

Definition eqb (a b : str) : bool := bool_decide (a = b).

Fixpoint startswith (s p : str) : bool :=
  match p, s with
  | [], _ => true
  | a :: p', b :: s' => (a =? b) && startswith s' p'
  | _ :: _, [] => false
  end.

Definition endswith (s p : str) : bool := startswith (rev s) (rev p).

Fixpoint dropwhile (p : char -> bool) (s : str) : str :=
  match s with
  | [] => []
  | a :: s' => if p a then dropwhile p s' else s
  end.

Definition lstrip (s : str) : str := dropwhile isspace s.
Definition rstrip (s : str) : str := rev (dropwhile isspace (rev s)).
Definition strip (s : str) : str := rstrip (lstrip s).

(** [sep.join(parts)]. *)
Fixpoint join (sep : str) (parts : list str) : str :=
  match parts with
  | [] => []
  | [p] => p
  | p :: rest => p ++ sep ++ join sep rest
  end.

(** [s.split(c)] for a one-character separator: never an empty list. *)
Fixpoint split_char (c : char) (s : str) : list str :=
  match s with
  | [] => [[]]
  | a :: s' =>
    if a =? c then [] :: split_char c s'
    else match split_char c s' with
         | cur :: rest => (a :: cur) :: rest
         | [] => [[a]]
         end
  end.

(** [s.replace(old, new)] for a non-empty [old]: the occurrences are taken
    left to right and do not overlap. *)
Fixpoint replace_fuel (fuel : nat) (old new s : str) : str :=
  match fuel with
  | O => s
  | S f =>
    match s with
    | [] => []
    | a :: s' =>
      if startswith s old
      then new ++ replace_fuel f old new (drop (length old) s)
      else a :: replace_fuel f old new s'
    end
  end.

Definition replace (old new s : str) : str := replace_fuel (length s) old new s.

(** [f.readlines()] on a decoded text: the lines keep their line feed. *)
Fixpoint readlines_from (cur : str) (s : str) : list str :=
  match s with
  | [] => match cur with [] => [] | _ => [rev cur] end
  | a :: s' =>
    if a =? LF then rev (a :: cur) :: readlines_from [] s'
    else readlines_from (a :: cur) s'
  end.

Definition readlines (s : str) : list str := readlines_from [] s.

End Py.

(** ** The fragment of Python's [re] the scripts use

    A backtracking matcher in continuation-passing style, with the priorities
    of [re]: alternatives left to right, greedy repetition longest first,
    lazy repetition shortest first.  Every repetition in the scripts has a
    body that consumes at least one character, so an iteration that consumes
    nothing is simply refused. *)

Module Re.
Import Py.

Inductive regex : Type :=
| Eps                                   (* the empty pattern *)
| Cls (p : char -> bool)                (* one character of a class *)
| Seq (r1 r2 : regex)                   (* r1 r2 *)
| Alt (r1 r2 : regex)                   (* r1|r2 *)
| Rep (greedy : bool) (lo : nat) (hi : option nat) (r : regex)
                                        (* r{lo,hi}, r{lo,hi}? *)
| Grp (j : nat) (r : regex)             (* capturing group number j *)
| Ahead (r : regex)                     (* (?=r) *)
| Bol                                   (* ^ without MULTILINE *)
| Eol (multiline : bool).               (* $ *)

(** Captured groups, the most recent binding first. *)
Definition caps := list (nat * str).

Fixpoint group (c : caps) (j : nat) : option str :=
  match c with
  | [] => None
  | (j', v) :: c' => if Nat.eqb j j' then Some v else group c' j
  end.

(** A match state: the position reached, the text that remains, the
    groups. *)
Definition mstate : Type := nat * str * caps.

Definition under (hi : option nat) (n : nat) : bool :=
  match hi with None => true | Some h => Nat.ltb n h end.

Fixpoint run (r : regex) (i : nat) (s : str) (c : caps)
    (k : nat -> str -> caps -> option mstate) {struct r} : option mstate :=
  match r with
  | Eps => k i s c
  | Cls p =>
    match s with
    | a :: s' => if p a then k (S i) s' c else None
    | [] => None
    end
  | Seq r1 r2 => run r1 i s c (fun i' s' c' => run r2 i' s' c' k)
  | Alt r1 r2 =>
    match run r1 i s c k with
    | Some m => Some m
    | None => run r2 i s c k
    end
  | Rep greedy lo hi r1 =>
    (fix loop (fuel n i : nat) (s : str) (c : caps) {struct fuel}
        : option mstate :=
       match fuel with
       | O => None
       | S fuel' =>
         if greedy then
           match
             (if under hi n
              then run r1 i s c (fun i' s' c' =>
                     if Nat.ltb i i' then loop fuel' (S n) i' s' c' else None)
              else None)
           with
           | Some m => Some m
           | None => if Nat.leb lo n then k i s c else None
           end
         else
           match (if Nat.leb lo n then k i s c else None) with
           | Some m => Some m
           | None =>
             if under hi n
             then run r1 i s c (fun i' s' c' =>
                    if Nat.ltb i i' then loop fuel' (S n) i' s' c' else None)
             else None
           end
       end) (S (length s)) O i s c
  | Grp j r1 =>
    run r1 i s c (fun i' s' c' => k i' s' ((j, take (i' - i)%nat s) :: c'))
  | Ahead r1 =>
    match run r1 i s c (fun i' s' c' => Some (i', s', c')) with
    | Some (_, _, c') => k i s c'
    | None => None
    end
  | Bol => if Nat.eqb i 0 then k i s c else None
  | Eol multiline =>
    match s with
    | [] => k i s c
    | a :: s' =>
      if (a =? LF) && (multiline || match s' with [] => true | _ => false end)
      then k i s c else None
    end
  end.

(** One attempt at position [i]; group 0 is the whole match. *)
Definition match_at (r : regex) (i : nat) (s : str) : option mstate :=
  run (Grp 0 r) i s [] (fun i' s' c' => Some (i', s', c')).

(** [re.match(r, s)]: the groups of a match at the start of [s]. *)
Definition re_match (r : regex) (s : str) : option caps :=
  match match_at r 0 s with
  | Some (_, _, c) => Some c
  | None => None
  end.

(** The leftmost match starting at or after position [i], [s] being the text
    from [i] on: the start of the match and the state after it. *)
Fixpoint search_from (r : regex) (i : nat) (s : str) : option (nat * mstate) :=
  match match_at r i s with
  | Some m => Some (i, m)
  | None =>
    match s with
    | [] => None
    | _ :: s' => search_from r (S i) s'
    end
  end.

(** [re.search(r, s)]. *)
Definition re_search (r : regex) (s : str) : option caps :=
  match search_from r 0 s with
  | Some (_, (_, _, c)) => Some c
  | None => None
  end.

(** [re.finditer(r, s)]: the successive matches, left to right, none
    overlapping another.  After an empty match the scan moves one character
    on. *)
Fixpoint finditer_from (fuel : nat) (r : regex) (i : nat) (s : str)
    : list caps :=
  match fuel with
  | O => []
  | S fuel' =>
    match search_from r i s with
    | None => []
    | Some (st, (e, s', c)) =>
      if Nat.ltb st e then c :: finditer_from fuel' r e s'
      else c :: match s' with
                | [] => []
                | _ :: s'' => finditer_from fuel' r (S e) s''
                end
    end
  end.

Definition re_finditer (r : regex) (s : str) : list caps :=
  finditer_from (S (length s)) r 0 s.

(** [re.sub(r, repl, s)], the replacement given as a function of the groups
    (a template such as [\1\n\2] reads them). *)
Fixpoint sub_from (fuel : nat) (r : regex) (repl : caps -> str) (i : nat)
    (s : str) : str :=
  match fuel with
  | O => s
  | S fuel' =>
    match search_from r i s with
    | None => s
    | Some (st, (e, s', c)) =>
      take (st - i)%nat s ++ repl c ++
      (if Nat.ltb st e then sub_from fuel' r repl e s'
       else match s' with
            | [] => []
            | a :: s'' => a :: sub_from fuel' r repl (S e) s''
            end)
    end
  end.

Definition re_sub (r : regex) (repl : caps -> str) (s : str) : str :=
  sub_from (S (length s)) r repl 0 s.

(** [re.split(r, s)] for a pattern with exactly one group, which every match
    fills: the pieces of text alternate with the delimiters. *)
Fixpoint split_from (fuel : nat) (r : regex) (i : nat) (s : str) : list str :=
  match fuel with
  | O => [s]
  | S fuel' =>
    match search_from r i s with
    | None => [s]
    | Some (st, (e, s', c)) =>
      if Nat.ltb st e
      then take (st - i)%nat s :: default [] (group c 1)
             :: split_from fuel' r e s'
      else [s]
    end
  end.

Definition re_split (r : regex) (s : str) : list str :=
  split_from (S (length s)) r 0 s.

(** Pattern building. *)
Definition chr (c : char) : regex := Cls (N.eqb c).
Definition any_of (cs : str) : regex := Cls (fun c => existsb (N.eqb c) cs).
Definition none_of (cs : str) : regex :=
  Cls (fun c => negb (existsb (N.eqb c) cs)).
Definition dot : regex := Cls (fun c => negb (c =? LF)).
Definition dot_all : regex := Cls (fun _ => true).

Fixpoint lit (s : str) : regex :=
  match s with
  | [] => Eps
  | [a] => chr a
  | a :: s' => Seq (chr a) (lit s')
  end.

Fixpoint seq (rs : list regex) : regex :=
  match rs with
  | [] => Eps
  | [r] => r
  | r :: rs' => Seq r (seq rs')
  end.

Definition star (r : regex) : regex := Rep true 0 None r.
Definition plus (r : regex) : regex := Rep true 1 None r.
Definition lazy_star (r : regex) : regex := Rep false 0 None r.
Definition exactly (n : nat) (r : regex) : regex := Rep true n (Some n) r.
Definition space : regex := Cls isspace.
Definition digit : regex := Cls isdecimal.

End Re.

(** ** analyze_chapters.py: numeral parser, marker scanner, index builder *)

Module AnalyzeChapters.
Import Py Re.

(** The dictionary [char_map] of [chinese_to_arabic]. *)
Definition char_map (c : char) : option Z :=
  if c =? ch "一" then Some 1%Z
  else if c =? ch "二" then Some 2%Z
  else if c =? ch "三" then Some 3%Z
  else if c =? ch "四" then Some 4%Z
  else if c =? ch "五" then Some 5%Z
  else if c =? ch "六" then Some 6%Z
  else if c =? ch "七" then Some 7%Z
  else if c =? ch "八" then Some 8%Z
  else if c =? ch "九" then Some 9%Z
  else if c =? ch "十" then Some 10%Z
  else if c =? ch "零" then Some 0%Z
  else if c =? ch "百" then Some 100%Z
  else None.

(** [s[i]], read only under a check of [len(s)]. *)
Definition at_index (s : str) (i : nat) : char := nth i s 0.

(** [char_map.get(c, 0)]. *)
Definition char_map_get0 (c : char) : Z := default 0%Z (char_map c).

Definition chinese_to_arabic (chinese_num : str) : option Z :=
  match chinese_num with
  | [] => None
  | _ =>
    if eqb chinese_num (u "一百") then Some 100%Z
    else if startswith chinese_num (u "十") && Nat.eqb (length chinese_num) 2
    then Some (10 + char_map_get0 (at_index chinese_num 1))%Z
    else if endswith chinese_num (u "十") && Nat.eqb (length chinese_num) 2
    then Some (char_map_get0 (at_index chinese_num 0) * 10)%Z
    else if existsb (N.eqb (ch "十")) chinese_num
            && Nat.eqb (length chinese_num) 3
    then
      let tens := char_map_get0 (at_index chinese_num 0) in
      let ones := char_map_get0 (at_index chinese_num 2) in
      Some (tens * 10 + ones)%Z
    else if Nat.eqb (length chinese_num) 1
    then char_map (at_index chinese_num 0)
    else None
  end.

(** The class [[一二三四五六七八九十百]]. *)
Definition cn_numeral : regex := any_of (u "一二三四五六七八九十百").

Definition di : regex := chr (ch "第").

(** [第(\d+)] and [第([一二三四五六七八九十百]+)]. *)
Definition arabic_number_re : regex := Seq di (Grp 1 (plus digit)).
Definition chinese_number_re : regex := Seq di (Grp 1 (plus cn_numeral)).

(** [m.group(j)] of a match in which group [j] took part. *)
Definition group_text (c : caps) (j : nat) : str := default [] (group c j).

Definition extract_chapter_number (match_text : str) : option Z * str :=
  match re_search arabic_number_re match_text with
  | Some arabic_match => (Some (int_digits (group_text arabic_match 1)), match_text)
  | None =>
    match re_search chinese_number_re match_text with
    | Some chinese_match =>
      match chinese_to_arabic (group_text chinese_match 1) with
      | Some num => (Some num, match_text)
      | None => (None, match_text)
      end
    | None => (None, match_text)
    end
  end.

(** One entry of the marker list. *)
Record chapter : Type := Chapter {
  line : Z;
  original : str;
  number : Z;
  pattern_type : str;
  line_content : str
}.

(** The list [patterns] of [find_chapters], in its order. *)
Definition patterns : list (regex * str) :=
  [ (seq [di; plus digit; chr (ch "回")], u "阿拉伯数字+回");
    (seq [di; plus cn_numeral; chr (ch "回")], u "中文数字+回");
    (seq [di; plus digit; chr (ch "章")], u "阿拉伯数字+章");
    (seq [di; plus cn_numeral; chr (ch "章")], u "中文数字+章") ].

(** The loop [for match in matches]: the first match whose number resolves
    is recorded, and the loop breaks there. *)
Fixpoint scan_matches (line_num : Z) (ln : str) (ptype : str)
    (matches : list caps) : option chapter :=
  match matches with
  | [] => None
  | m :: rest =>
    let match_text := group_text m 0 in
    match extract_chapter_number match_text with
    | (Some chapter_num, _) =>
      Some {| line := line_num; original := match_text;
              number := chapter_num; pattern_type := ptype;
              line_content := take 100 (strip ln) |}
    | (None, _) => scan_matches line_num ln ptype rest
    end
  end.

(** The loop [for pattern, pattern_type in patterns] on one line: it breaks
    after the first pattern that has any match. *)
Fixpoint scan_patterns (line_num : Z) (ln : str) (pats : list (regex * str))
    (chapters : list chapter) : list chapter :=
  match pats with
  | [] => chapters
  | (pattern, ptype) :: rest =>
    let matches := re_finditer pattern ln in
    let chapters' :=
      match scan_matches line_num ln ptype matches with
      | Some c => chapters ++ [c]
      | None => chapters
      end in
    match re_finditer pattern ln with
    | _ :: _ => chapters'
    | [] => scan_patterns line_num ln rest chapters'
    end
  end.

(** The loop [for line_num, line in enumerate(f, 1)]. *)
Fixpoint scan_lines (line_num : Z) (lines : list str)
    (chapters : list chapter) : list chapter :=
  match lines with
  | [] => chapters
  | ln :: rest =>
    scan_lines (line_num + 1) rest (scan_patterns line_num ln patterns chapters)
  end.

(** [chapters.sort(key=lambda x: x['line'])]: a stable sort. *)
Fixpoint insert_by_line (c : chapter) (l : list chapter) : list chapter :=
  match l with
  | [] => [c]
  | d :: l' =>
    if (line c <=? line d)%Z then c :: l else d :: insert_by_line c l'
  end.

Definition sort_by_line (l : list chapter) : list chapter :=
  foldr insert_by_line [] l.

(** [find_chapters], on the lines of a file that could be read. *)
Definition find_chapters (lines : list str) : list chapter :=
  sort_by_line (scan_lines 1 lines []).

(** The statistics of [analyze_chapters]. *)
Record stats : Type := Stats {
  total : nat;
  by_pattern : gmap str nat;
  by_number : gmap Z chapter;
  missing_numbers : list Z;
  duplicates : gmap Z (list chapter)
}.

(** [min(...)] and [max(...)] over a non-empty iterable. *)
Definition min_of (d : Z) (l : list Z) : Z := foldr Z.min d l.
Definition max_of (d : Z) (l : list Z) : Z := foldr Z.max d l.

(** [sorted(s)] for a set of integers. *)
Definition sorted_set (s : gset Z) : list Z := merge_sort Z.le (elements s).

(** [set(range(lo, hi))]. *)
Definition range_set (lo hi : Z) : gset Z := list_to_set (seqZ lo (hi - lo)).

Definition find_missing (chapters : list chapter) : list Z :=
  match chapters with
  | [] => []
  | c :: rest =>
    let min_num := min_of (number c) (map number rest) in
    let max_num := max_of (number c) (map number rest) in
    let all_numbers := range_set min_num (max_num + 1) in
    let found_numbers : gset Z := list_to_set (map number chapters) in
    sorted_set (all_numbers ∖ found_numbers)
  end.

Definition count_patterns (chapters : list chapter) : gmap str nat :=
  fold_left (fun m c => <[pattern_type c := S (default O (m !! pattern_type c))]> m)
            chapters ∅.

Definition index_by_number (chapters : list chapter) : gmap Z chapter :=
  fold_left (fun m c => <[number c := c]> m) chapters ∅.

Definition number_counts (chapters : list chapter) : gmap Z (list chapter) :=
  fold_left (fun m c => <[number c := default [] (m !! number c) ++ [c]]> m)
            chapters ∅.

Definition analyze_chapters (chapters : list chapter) : stats :=
  {| total := length chapters;
     by_pattern := count_patterns chapters;
     by_number := index_by_number chapters;
     missing_numbers := find_missing chapters;
     duplicates :=
       filter (fun kv => (1 < length kv.2)%nat) (number_counts chapters) |}.

(** One entry of the chapter index file. *)
Record chapter_record : Type := ChapterRecord {
  r_number : Z;
  r_original : str;
  r_pattern_type : str;
  start_line : Z;
  end_line : option Z
}.

Record config : Type := Config {
  total_chapters : nat;
  chapters_of : list chapter_record
}.

(** The loop of [generate_config]: [chapters[i + 1]] is the head of what
    follows entry [i]. *)
Fixpoint config_entries (chapters : list chapter) : list chapter_record :=
  match chapters with
  | [] => []
  | c :: rest =>
    {| r_number := number c; r_original := original c;
       r_pattern_type := pattern_type c;
       start_line := line c;
       end_line := match rest with
                   | next :: _ => Some (line next - 1)%Z
                   | [] => None
                   end |} :: config_entries rest
  end.

(** [generate_config]: the value written to the index file. *)
Definition generate_config (chapters : list chapter) : config :=
  {| total_chapters := length chapters;
     chapters_of := config_entries chapters |}.

End AnalyzeChapters.

(** ** extract_chapters.py: the chapter slicer *)

Module ExtractChapters.
Import Py Re AnalyzeChapters.

(** [lines[a:b]] for indices with [0 <= a]. *)
Definition slice (lines : list str) (a b : Z) : list str :=
  take (Z.to_nat b - Z.to_nat a)%nat (drop (Z.to_nat a) lines).

(** [extract_chapter_content], on the lines read from the input file.
    [None] is the result for an invalid range. *)
Definition extract_chapter_content (lines : list str) (start_line : Z)
    (end_line : option Z) : option str :=
  let total_lines := Z.of_nat (length lines) in
  let start_idx := Z.max 0 (start_line - 1) in
  let end_idx :=
    match end_line with
    | None => total_lines
    | Some e => Z.min (e - 1) total_lines
    end in
  if (end_idx <=? start_idx)%Z then None
  else Some (concat (slice lines start_idx end_idx)).

(** [f"chapter_{chapter_num:02d}.txt"]. *)
Definition chapter_filename (chapter_num : Z) : str :=
  u "chapter_" ++ fmt_02d chapter_num ++ u ".txt".

Definition placeholder_content (chapter_num : Z) : str :=
  u "本章节（第" ++ str_of_Z chapter_num ++ u "章）在原文档中缺失。" ++ [LF].

(** The first loop of [extract_all_chapters], over the records of the index
    in their order; the state is the output directory (file name to content)
    and the count of extracted chapters. *)
Definition extract_one (lines : list str) (st : gmap str str * nat)
    (c : chapter_record) : gmap str str * nat :=
  match extract_chapter_content lines (start_line c) (end_line c) with
  | Some (a :: content) =>
    (<[chapter_filename (r_number c) := a :: content]> st.1, S st.2)
  | _ => st
  end.

Definition extract_found (lines : list str) (chapters : list chapter_record)
    (out : gmap str str) : gmap str str * nat :=
  fold_left (extract_one lines) chapters (out, O).

(** [sorted(set(range(1, 101)) - found_chapter_numbers)]. *)
Definition missing_chapter_numbers (chapters : list chapter_record) : list Z :=
  sorted_set (range_set 1 101 ∖ list_to_set (map r_number chapters)).

(** The second loop: a placeholder file for each missing number. *)
Definition write_placeholders (missing : list Z) (out : gmap str str)
    : gmap str str :=
  fold_left (fun o n => <[chapter_filename n := placeholder_content n]> o)
            missing out.

(** [extract_all_chapters]: the lines of the input file, the index file as
    loaded ([None] when it cannot be read), the output directory before; the
    result and the output directory after. *)
Definition extract_all_chapters (lines : list str) (cfg : option config)
    (out : gmap str str) : bool * gmap str str :=
  match cfg with
  | None => (false, out)
  | Some config =>
    match chapters_of config with
    | [] => (false, out)
    | chapters =>
      let missing := missing_chapter_numbers chapters in
      let out1 := (extract_found lines chapters out).1 in
      (true, write_placeholders missing out1)
    end
  end.

End ExtractChapters.

(** ** clean_text.py: the text normalizer *)

Module CleanText.
Import Py Re AnalyzeChapters.

(** [第\d+回]. *)
Definition hui_marker : regex := seq [di; plus digit; chr (ch "回")].

(** [级别:.*?最后登录:\d+.*?(?=第\d+回|$)] with DOTALL. *)
Definition user_info_re : regex :=
  seq [lit (u "级别:"); lazy_star dot_all; lit (u "最后登录:"); plus digit;
       lazy_star dot_all; Ahead (Alt hui_marker (Eol false))].

(** [\d{4}-\d{2}-\d{2}]. *)
Definition date_re : regex :=
  seq [exactly 4 digit; chr (ch "-"); exactly 2 digit; chr (ch "-");
       exactly 2 digit].

(** [Posted:\s*\d{4}-\d{2}-\d{2}.*?\n]. *)
Definition posted_re : regex :=
  seq [lit (u "Posted:"); star space; date_re; lazy_star dot; chr LF].

(** [\[\d+\s+楼\]\s*]. *)
Definition floor_re : regex :=
  seq [chr (ch "["); plus digit; plus space; chr (ch "楼"); chr (ch "]");
       star space].

(** [\n{3,}.*?级别:.*?\n{3,}] with DOTALL. *)
Definition signature_re : regex :=
  seq [Rep true 3 None (chr LF); lazy_star dot_all; lit (u "级别:");
       lazy_star dot_all; Rep true 3 None (chr LF)].

(** [[ \t]+$] with MULTILINE. *)
Definition trailing_blank_re : regex :=
  Seq (plus (any_of [SP; TAB])) (Eol true).

(** [\n{4,}]. *)
Definition blank_run_re : regex := Rep true 4 None (chr LF).

(** [[\x00-\x08\x0B-\x0C\x0E-\x1F\x7F]]. *)
Definition control_re : regex :=
  Cls (fun c => (c <=? 8) || ((11 <=? c) && (c <=? 12))
                || ((14 <=? c) && (c <=? 31)) || (c =? 127)).

(** [([^\n])\n(第\d+回)]. *)
Definition before_marker_re : regex :=
  seq [Grp 1 dot; chr LF; Grp 2 hui_marker].

(** [(第\d+回\s+)([^\n])]. *)
Definition after_marker_re : regex :=
  seq [Grp 1 (Seq hui_marker (plus space)); Grp 2 dot].

Definition erase : caps -> str := fun _ => [].

(** The rewriting steps of [clean_text], from the text read to the text
    written, in the order of the script. *)
Definition clean_text (content : str) : str :=
  let content := re_sub user_info_re erase content in
  let content := re_sub posted_re erase content in
  let content := re_sub floor_re erase content in
  let content := re_sub signature_re (fun _ => [LF; LF]) content in
  let content := replace [CR] [LF] (replace [CR; LF] [LF] content) in
  let content := re_sub trailing_blank_re erase content in
  let content := re_sub blank_run_re (fun _ => [LF; LF; LF]) content in
  let content := re_sub control_re erase content in
  let content :=
    re_sub before_marker_re
      (fun c => group_text c 1 ++ [LF; LF] ++ group_text c 2) content in
  let content :=
    re_sub after_marker_re
      (fun c => group_text c 1 ++ [LF] ++ group_text c 2) content in
  strip content ++ [LF].

End CleanText.

(** ** md/process_chapters_reusable.py: the paragraph reflow engine *)

Module Reusable.
Import Py Re.

(** The table [CHINESE_DIGITS]. *)
Definition CHINESE_DIGITS : list (str * Z) :=
  [ (u "零", 0); (u "一", 1); (u "二", 2); (u "三", 3); (u "四", 4);
    (u "五", 5); (u "六", 6); (u "七", 7); (u "八", 8); (u "九", 9);
    (u "十", 10);
    (u "十一", 11); (u "十二", 12); (u "十三", 13); (u "十四", 14);
    (u "十五", 15); (u "十六", 16); (u "十七", 17); (u "十八", 18);
    (u "十九", 19); (u "二十", 20);
    (u "二十一", 21); (u "二十二", 22); (u "二十三", 23); (u "二十四", 24);
    (u "二十五", 25); (u "二十六", 26); (u "二十七", 27); (u "二十八", 28);
    (u "二十九", 29); (u "三十", 30);
    (u "三十一", 31); (u "三十二", 32); (u "三十三", 33); (u "三十四", 34);
    (u "三十五", 35); (u "三十六", 36); (u "三十七", 37); (u "三十八", 38);
    (u "三十九", 39); (u "四十", 40);
    (u "四十一", 41); (u "四十二", 42); (u "四十三", 43); (u "四十四", 44);
    (u "四十五", 45); (u "四十六", 46); (u "四十七", 47); (u "四十八", 48);
    (u "四十九", 49); (u "五十", 50);
    (u "五十一", 51); (u "五十二", 52); (u "五十三", 53); (u "五十四", 54);
    (u "五十五", 55); (u "五十六", 56); (u "五十七", 57); (u "五十八", 58);
    (u "五十九", 59); (u "六十", 60);
    (u "六十一", 61); (u "六十二", 62); (u "六十三", 63); (u "六十四", 64);
    (u "六十五", 65); (u "六十六", 66); (u "六十七", 67); (u "六十八", 68);
    (u "六十九", 69); (u "七十", 70);
    (u "七十一", 71); (u "七十二", 72); (u "七十三", 73); (u "七十四", 74);
    (u "七十五", 75); (u "七十六", 76); (u "七十七", 77); (u "七十八", 78);
    (u "七十九", 79); (u "八十", 80);
    (u "八十一", 81); (u "八十二", 82); (u "八十三", 83); (u "八十四", 84);
    (u "八十五", 85); (u "八十六", 86); (u "八十七", 87); (u "八十八", 88);
    (u "八十九", 89); (u "九十", 90);
    (u "九十一", 91); (u "九十二", 92); (u "九十三", 93); (u "九十四", 94);
    (u "九十五", 95); (u "九十六", 96); (u "九十七", 97); (u "九十八", 98);
    (u "九十九", 99); (u "一百", 100) ]%Z.

Definition PARAGRAPH_MIN_LENGTH : nat := 100.
Definition NEXT_SENTENCE_MIN_LENGTH : nat := 20.

(** [d.get(key, None)] on a table with distinct keys. *)
Fixpoint table_get (d : list (str * Z)) (key : str) : option Z :=
  match d with
  | [] => None
  | (k, v) :: d' => if eqb k key then Some v else table_get d' key
  end.

Definition chinese_to_arabic (chinese_num : str) : option Z :=
  table_get CHINESE_DIGITS chinese_num.

Definition normalize_chapter_number (chapter_str : str) : option Z :=
  if isdigit chapter_str then Some (int_digits chapter_str)
  else
    match chinese_to_arabic chapter_str with
    | Some arabic => Some arabic
    | None => None
    end.

(** The class [[0-9一二三四五六七八九十百]]. *)
Definition numeral : regex :=
  Cls (fun c => is_ascii_digit c
                || existsb (N.eqb c) (u "一二三四五六七八九十百")).

Definition di : regex := chr (ch "第").
Definition hui_zhang : regex := any_of (u "回章").

(** [级别:|发帖:|Posted:|\[.*楼\]|堂中威望|贡献值|注册时间|最后登录|梦中的王子] *)
Definition forum_re : regex :=
  Alt (lit (u "级别:"))
  (Alt (lit (u "发帖:"))
  (Alt (lit (u "Posted:"))
  (Alt (seq [chr (ch "["); star dot; chr (ch "楼"); chr (ch "]")])
  (Alt (lit (u "堂中威望"))
  (Alt (lit (u "贡献值"))
  (Alt (lit (u "注册时间"))
  (Alt (lit (u "最后登录"))
       (lit (u "梦中的王子"))))))))).

(** [第([0-9一二三四五六七八九十百]+)[回章]] *)
Definition marker_re : regex := seq [di; Grp 1 (plus numeral); hui_zhang].

(** [第[0-9一二三四五六七八九十百]+[回章]\s*] *)
Definition marker_strip_re : regex :=
  seq [di; plus numeral; hui_zhang; star space].

(** [级别:.*?注册时间.*?最后登录.*?\s*] *)
Definition forum_block_re : regex :=
  seq [lit (u "级别:"); lazy_star dot; lit (u "注册时间"); lazy_star dot;
       lit (u "最后登录"); lazy_star dot; star space].

(** [:\d{4}-\d{2}-\d{2}\s*] *)
Definition date_stamp_re : regex :=
  seq [chr (ch ":"); exactly 4 digit; chr (ch "-"); exactly 2 digit;
       chr (ch "-"); exactly 2 digit; star space].

Definition not_punct : regex := none_of (u "。，！？").
Definition open_paren : regex := any_of (u "（(").
Definition close_paren : regex := any_of (u "）)").

(** [^([^。，！？]*[（(].*?[）)])\s+(.+)$] *)
Definition subtitle_body_re : regex :=
  seq [Bol;
       Grp 1 (seq [star not_punct; open_paren; lazy_star dot; close_paren]);
       plus space; Grp 2 (plus dot); Eol false].

(** [^[^。，！？]*[（(].*?[）)]$] *)
Definition subtitle_only_re : regex :=
  seq [Bol; star not_punct; open_paren; lazy_star dot; close_paren; Eol false].

(** [^([^。，！？]{2,10})\s+(.+)$] *)
Definition simple_subtitle_re : regex :=
  seq [Bol; Grp 1 (Rep true 2 (Some 10%nat) not_punct); plus space;
       Grp 2 (plus dot); Eol false].

(** [^[^。，！？]+$] *)
Definition no_punct_re : regex := seq [Bol; plus not_punct; Eol false].

(** [([。！？])] *)
Definition sentence_end_re : regex := Grp 1 (any_of (u "。！？")).

Definition erase : caps -> str := fun _ => [].
Definition group_text (c : caps) (j : nat) : str := default [] (group c j).
Definition is_match (m : option caps) : bool :=
  match m with Some _ => true | None => false end.
Definition nonempty (s : str) : bool :=
  match s with [] => false | _ => true end.

Definition strip_markers (s : str) : str := re_sub marker_strip_re erase s.
Definition strip_dates (s : str) : str := re_sub date_stamp_re erase s.

(** [s.endswith(('。', '！', '？'))] *)
Definition ends_sentence (s : str) : bool :=
  endswith s (u "。") || endswith s (u "！") || endswith s (u "？").

(** The state of the filtering loop of [format_chapter_content_sop]. *)
Record fstate : Type := FState {
  skip_next_chapter : bool;
  start_processing : bool;
  filtered : list str
}.

(** What one iteration does to the loop: go on to the next line, or
    [break]. *)
Inductive flow : Type :=
| Continue (st : fstate)
| Break (st : fstate).

Definition started (st : fstate) : fstate :=
  {| skip_next_chapter := skip_next_chapter st; start_processing := true;
     filtered := filtered st |}.

Definition append (st : fstate) (s : str) : fstate :=
  {| skip_next_chapter := skip_next_chapter st;
     start_processing := start_processing st;
     filtered := filtered st ++ [s] |}.

Definition append_if (st : fstate) (s : str) : fstate :=
  if nonempty s then append st s else st.

(** The handling of what follows the chapter's own marker on its line (the
    same statements in the forum branch and in the marker branch): a
    subtitle in front of the text is cut off, a line that is only a
    subtitle is skipped. *)
Definition own_marker_tail (st : fstate) (remaining : str) : flow :=
  match re_match subtitle_body_re remaining with
  | Some subtitle_match =>
    let remaining := strip (group_text subtitle_match 2) in
    Continue (append_if st (strip_markers remaining))
  | None =>
    if is_match (re_match subtitle_only_re remaining)
       && Nat.ltb (length remaining) 50
    then Continue st
    else
      let remaining :=
        match re_match simple_subtitle_re remaining with
        | Some simple_subtitle_match =>
          let subtitle_part := group_text simple_subtitle_match 1 in
          let body_part := group_text simple_subtitle_match 2 in
          if Nat.leb (length subtitle_part) 10
             && Nat.ltb 20 (length body_part)
          then strip body_part else remaining
        | None => remaining
        end in
      Continue (append_if st (strip_markers remaining))
  end.

(** The body of the loop [for i, line in enumerate(lines)]. *)
Definition line_step (chapter_num : Z) (i : nat) (ln : str) (st : fstate)
    : flow :=
  let stripped := strip ln in
  if skip_next_chapter st then Break st
  else if negb (nonempty stripped) then
    Continue (if start_processing st then append st [] else st)
  else if is_match (re_search forum_re stripped) then
    (* 1. forum information, handled first *)
    match re_search marker_re stripped with
    | Some chapter_match =>
      let chapter_str := group_text chapter_match 1 in
      let normalized := normalize_chapter_number chapter_str in
      if bool_decide (normalized = Some chapter_num) then
        let st := started st in
        let remaining := re_sub forum_block_re erase stripped in
        let remaining := strip_markers remaining in
        let remaining := strip (replace (u "?") [] remaining) in
        let remaining := strip_dates remaining in
        own_marker_tail st remaining
      else Continue st
    | None => Continue st
    end
  else
    (* 2. a chapter marker *)
    match re_search marker_re stripped with
    | Some chapter_match =>
      let chapter_str := group_text chapter_match 1 in
      let normalized := normalize_chapter_number chapter_str in
      if bool_decide (normalized = Some chapter_num) then
        let st := started st in
        let remaining := strip_markers stripped in
        let remaining := strip (replace (u "?") [] remaining) in
        let remaining := strip_dates remaining in
        own_marker_tail st remaining
      else if start_processing st then
        Break {| skip_next_chapter := true;
                 start_processing := start_processing st;
                 filtered := filtered st |}
      else Continue st
    | None =>
      if Nat.eqb i 0 && negb (start_processing st) then
        (* 3. a first line without a marker *)
        let st := started st in
        let whole :=
          Continue (append_if st (strip_dates (strip_markers stripped))) in
        match re_match subtitle_body_re stripped with
        | Some subtitle_match =>
          let body_text := strip (group_text subtitle_match 2) in
          Continue (append_if st (strip_dates (strip_markers body_text)))
        | None =>
          match re_match simple_subtitle_re stripped with
          | Some simple_subtitle_match =>
            let subtitle_part := group_text simple_subtitle_match 1 in
            let body_part := group_text simple_subtitle_match 2 in
            if Nat.leb (length subtitle_part) 10
               && Nat.ltb 20 (length body_part)
            then
              let body_text :=
                strip_dates (strip_markers (strip body_part)) in
              if nonempty body_text then Continue (append st body_text)
              else whole
            else whole
          | None => whole
          end
        end
      else if negb (start_processing st) then Continue st
      (* 4. a line that is only a subtitle *)
      else if is_match (re_match subtitle_only_re stripped)
              && Nat.ltb (length stripped) 50
      then Continue st
      else
        (* 5. a subtitle in front of the text *)
        match re_match subtitle_body_re stripped with
        | Some subtitle_match =>
          let body_text := strip (group_text subtitle_match 2) in
          Continue (append_if st (strip_dates (strip_markers body_text)))
        | None =>
          (* 6. a short line without punctuation *)
          if is_match (re_match no_punct_re stripped)
             && Nat.ltb (length stripped) 20
             && negb (ends_sentence stripped)
          then Continue st
          else if eqb stripped (u "?") then Continue st
          else
            let stripped :=
              if startswith stripped (u "?") then strip (drop 1 stripped)
              else stripped in
            let stripped := strip (replace (u "窗体底端") [] stripped) in
            let stripped := strip_dates (strip_markers stripped) in
            Continue (append_if st stripped)
        end
    end.

(** The loop itself. *)
Fixpoint filter_lines (chapter_num : Z) (i : nat) (lines : list str)
    (st : fstate) : fstate :=
  match lines with
  | [] => st
  | ln :: rest =>
    match line_step chapter_num i ln st with
    | Continue st' => filter_lines chapter_num (S i) rest st'
    | Break st' => st'
    end
  end.

Definition initial : fstate :=
  {| skip_next_chapter := false; start_processing := false; filtered := [] |}.

(** The text stream handed to the paragraph builder. *)
Definition full_text_of (filtered : list str) : str :=
  let full_text := join (u " ") filtered in
  let full_text := strip_markers full_text in
  let full_text := strip_dates full_text in
  re_sub (plus space) (fun _ => u " ") full_text.

Section Paragraphs.

(** The two thresholds, configuration constants of the module. *)
Variables paragraph_min_length next_sentence_min_length : nat.

(** [paragraphs.append(para_text.strip())] under [if para_text.strip()]. *)
Definition close_paragraph (current_para paragraphs : list str) : list str :=
  let para_text := join (u " ") current_para in
  if nonempty (strip para_text) then paragraphs ++ [strip para_text]
  else paragraphs.

(** The body of the loop [while i < len(parts)]: [p0] is [parts[i]] and
    [tl] is [parts[i+1:]]. *)
Definition paragraph_step (p0 : str) (tl : list str)
    (current_para paragraphs : list str) : list str * list str :=
  if nonempty (strip p0) then
    let sentence :=
      strip (p0 ++ match tl with p1 :: _ => p1 | [] => [] end) in
    if nonempty sentence then
      let current_para := current_para ++ [sentence] in
      if ends_sentence sentence then
        match tl with
        | _ :: p2 :: tl2 =>
          (* i + 2 < len(parts) *)
          let next_part := p2 ++ match tl2 with p3 :: _ => p3 | [] => [] end in
          let next_sentence := strip next_part in
          let current_para_text := join (u " ") current_para in
          if Nat.ltb next_sentence_min_length (length next_sentence)
             && Nat.ltb paragraph_min_length (length current_para_text)
          then ([], close_paragraph current_para paragraphs)
          else (current_para, paragraphs)
        | _ => ([], close_paragraph current_para paragraphs)
        end
      else (current_para, paragraphs)
    else (current_para, paragraphs)
  else (current_para, paragraphs).

(** The loop itself, with [i += 2]; [l] is [parts[i:]]. *)
Fixpoint build_paragraphs (l : list str) (current_para paragraphs : list str)
    : list str * list str :=
  match l with
  | [] => (current_para, paragraphs)
  | p0 :: tl =>
    let after := paragraph_step p0 tl current_para paragraphs in
    match tl with
    | _ :: rest => build_paragraphs rest after.1 after.2
    | [] => after
    end
  end.

(** The paragraphs of a chapter: the loop, then what is left over. *)
Definition paragraphs_of_parts (parts : list str) : list str :=
  let '(current_para, paragraphs) := build_paragraphs parts [] [] in
  match current_para with
  | [] => paragraphs
  | _ => close_paragraph current_para paragraphs
  end.

(** The reflow of the lines of a raw chapter ([content.split('\n')]). *)
Definition reflow_lines (lines : list str) (chapter_num : Z) : list str :=
  let st := filter_lines chapter_num 0 lines initial in
  paragraphs_of_parts (re_split sentence_end_re (full_text_of (filtered st))).

Definition format_lines (lines : list str) (chapter_num : Z) : str :=
  strip (join [LF; LF] (reflow_lines lines chapter_num)).

Definition reflow_paragraphs (content : str) (chapter_num : Z) : list str :=
  reflow_lines (split_char LF content) chapter_num.

Definition format_with (content : str) (chapter_num : Z) : str :=
  format_lines (split_char LF content) chapter_num.

End Paragraphs.

(** [format_chapter_content_sop], with the thresholds of the module. *)
Definition format_chapter_content_sop (content : str) (chapter_num : Z) : str :=
  format_with PARAGRAPH_MIN_LENGTH NEXT_SENTENCE_MIN_LENGTH content chapter_num.

Definition heading (chapter_num : Z) : str :=
  u "# 第" ++ str_of_Z chapter_num ++ u "章" ++ [LF; LF].

Definition generate_markdown (chapter_num : Z) (formatted_content : str) : str :=
  if negb (nonempty (strip formatted_content))
  then heading chapter_num ++ u "本章节内容为空。"
  else heading chapter_num ++ formatted_content.

End Reusable.

(** ** process_chapters_batch.py: the ledger-driven batch processor *)

Module Batch.
Import Py Re.

(** [^第[0-9一二三四五六七八九十百]+[回章]|^第[0-9一二三四五六七八九十百]+[回章]\s] *)
Definition chapter_marker_re : regex :=
  Alt (seq [Bol; Reusable.di; plus Reusable.numeral; Reusable.hui_zhang])
      (seq [Bol; Reusable.di; plus Reusable.numeral; Reusable.hui_zhang; space]).

(** [^第0?{chapter_num}[回章]|^第{chapter_num:02d}[回章]], the number
    written into the pattern. *)
Definition own_marker_re (chapter_num : Z) : regex :=
  Alt (seq [Bol; Reusable.di; Rep true 0 (Some 1%nat) (chr (ch "0"));
            lit (str_of_Z chapter_num); Reusable.hui_zhang])
      (seq [Bol; Reusable.di; lit (fmt_02d chapter_num); Reusable.hui_zhang]).

Definition is_match := Reusable.is_match.
Definition nonempty := Reusable.nonempty.

(** The first loop of [format_chapter_content]: the lines kept, with the
    flag [skip_initial_forum]. *)
Fixpoint keep_lines (chapter_num : Z) (lines : list str)
    (skip_initial_forum : bool) (filtered_lines : list str) : list str :=
  match lines with
  | [] => filtered_lines
  | ln :: rest =>
    if is_match (re_search chapter_marker_re ln) then
      if is_match (re_search (own_marker_re chapter_num) ln)
      then keep_lines chapter_num rest false filtered_lines
      else filtered_lines
    else if skip_initial_forum && is_match (re_search Reusable.forum_re ln)
    then keep_lines chapter_num rest skip_initial_forum filtered_lines
    else
      let stripped := strip ln in
      if eqb stripped [] || eqb stripped (u "?") then
        keep_lines chapter_num rest skip_initial_forum
          (match filtered_lines with
           | [] => filtered_lines
           | _ => filtered_lines ++ [[]]
           end)
      else if Nat.ltb (length stripped) 2
      then keep_lines chapter_num rest skip_initial_forum filtered_lines
      else keep_lines chapter_num rest false (filtered_lines ++ [ln])
  end.

(** [last_char in '。！？'], the last character of the last line of the
    paragraph; the empty string is a substring of any string. *)
Definition ends_with_stop (current_para : list str) : bool :=
  match last current_para with
  | Some s =>
    match last s with
    | Some c => existsb (N.eqb c) (u "。！？")
    | None => true
    end
  | None => true
  end.

(** The second loop: lines merged into paragraphs. *)
Fixpoint merge_lines (lines : list str) (current_para paragraphs : list str)
    : list str * list str :=
  match lines with
  | [] => (current_para, paragraphs)
  | ln :: rest =>
    let ln := strip ln in
    if negb (nonempty ln) then
      match current_para with
      | [] => merge_lines rest current_para paragraphs
      | _ => merge_lines rest [] (paragraphs ++ [join (u " ") current_para])
      end
    else
      match current_para with
      | [] => merge_lines rest (current_para ++ [ln]) paragraphs
      | _ =>
        if ends_with_stop current_para && Nat.ltb 10 (length ln)
        then merge_lines rest [ln] (paragraphs ++ [join (u " ") current_para])
        else merge_lines rest (current_para ++ [ln]) paragraphs
      end
  end.

Definition format_chapter_content (content : str) (chapter_num : Z) : str :=
  let lines := split_char LF content in
  let filtered_lines := keep_lines chapter_num lines true [] in
  let text := join [LF] filtered_lines in
  if negb (nonempty (strip text)) then []
  else
    let '(current_para, paragraphs) := merge_lines (split_char LF text) [] [] in
    let paragraphs :=
      match current_para with
      | [] => paragraphs
      | _ => paragraphs ++ [join (u " ") current_para]
      end in
    let result := join [LF; LF] paragraphs in
    if nonempty (strip result) then result else strip text.

Definition generate_markdown (chapter_num : Z) (formatted_content : str) : str :=
  u "# 第" ++ str_of_Z chapter_num ++ u "章" ++ [LF; LF] ++ formatted_content.

(** One entry of the progress ledger: a JSON object, field to value. *)
Abbreviation entry := (gmap str str).

(** What the processor reads and writes: the ledger file as parsed ([None]
    when it cannot be loaded), the directory of raw chapters, the directory
    of results, and the number of readings of the clock so far. *)
Record world : Type := World {
  progress_file : option (gmap str entry);
  chapters_raw : gmap str str;
  result : gmap str str;
  clock : nat
}.

(** How a call ends: it returns a value, or an exception leaves it. *)
Inductive outcome : Type :=
| Returned (b : bool)
| Raised.

Definition raw_filename (chapter_num : Z) : str :=
  u "chapter_" ++ fmt_02d chapter_num ++ u ".txt".

Definition result_filename (chapter_num : Z) : str :=
  u "第" ++ fmt_02d chapter_num ++ u "章.md".

Definition read_chapter_content (chapter_num : Z) (w : world) : option str :=
  chapters_raw w !! raw_filename chapter_num.

Section Clock.

(** [datetime.now().isoformat()] at the n-th reading of the clock. *)
Variable isoformat : nat -> str.

(** [progress[chapter_key][field] = value]; [None] is the [KeyError] of a
    ledger without the chapter. *)
Definition set_field (progress : gmap str entry) (chapter_key field value : str)
    : option (gmap str entry) :=
  match progress !! chapter_key with
  | Some e => Some (<[chapter_key := <[field := value]> e]> progress)
  | None => None
  end.

Definition save_progress (progress : gmap str entry) (w : world) : world :=
  {| progress_file := Some progress; chapters_raw := chapters_raw w;
     result := result w; clock := clock w |}.

Definition tick (w : world) : world :=
  {| progress_file := progress_file w; chapters_raw := chapters_raw w;
     result := result w; clock := S (clock w) |}.

Definition write_result (name content : str) (w : world) : world :=
  {| progress_file := progress_file w; chapters_raw := chapters_raw w;
     result := <[name := content]> (result w); clock := clock w |}.

Definition process_chapter (chapter_num : Z) (w : world) : outcome * world :=
  match progress_file w with
  | None => (Raised, w)
  | Some progress =>
    let chapter_key := str_of_Z chapter_num in
    if bool_decide
         (default ∅ (progress !! chapter_key) !! u "status" = Some (u "completed"))
    then (Returned true, w)
    else
      match set_field progress chapter_key (u "status") (u "processing") with
      | None => (Raised, w)
      | Some progress =>
        let t := isoformat (clock w) in
        let w := tick w in
        match set_field progress chapter_key (u "updated_at") t with
        | None => (Raised, w)
        | Some progress =>
          let w := save_progress progress w in
          let content := read_chapter_content chapter_num w in
          let missing :=
            match content with
            | None => true
            | Some c =>
              negb (nonempty c) || startswith (strip c) (u "本章节")
            end in
          if missing then
            match set_field progress chapter_key (u "status") (u "skipped") with
            | None => (Raised, w)
            | Some progress =>
              match set_field progress chapter_key (u "notes")
                      (u "内容为空或缺失") with
              | None => (Raised, w)
              | Some progress => (Returned false, save_progress progress w)
              end
            end
          else
            let formatted_content :=
              format_chapter_content (default [] content) chapter_num in
            let md_content := generate_markdown chapter_num formatted_content in
            let w := write_result (result_filename chapter_num) md_content w in
            match set_field progress chapter_key (u "status") (u "completed") with
            | None => (Raised, w)
            | Some progress =>
              let t1 := isoformat (clock w) in
              let w := tick w in
              let t2 := isoformat (clock w) in
              let w := tick w in
              match set_field progress chapter_key (u "created_at") t1 with
              | None => (Raised, w)
              | Some progress =>
                match set_field progress chapter_key (u "updated_at") t2 with
                | None => (Raised, w)
                | Some progress =>
                  match set_field progress chapter_key (u "notes")
                          (u "已完成格式校对和Markdown生成") with
                  | None => (Raised, w)
                  | Some progress => (Returned true, save_progress progress w)
                  end
                end
              end
            end
        end
      end
  end.

End Clock.

End Batch.

(** ** md/process_chapters_reusable.py: the per-chapter driver and the batch *)

Module ReusableDriver.
Import Py Re Reusable.

Definition MISSING_CHAPTER_MAX_SIZE : nat := 100.

(** [f"chapter_{chapter_num:02d}.txt"] and [f"第{chapter_num:02d}章.md"]. *)
Definition raw_filename (chapter_num : Z) : str :=
  u "chapter_" ++ fmt_02d chapter_num ++ u ".txt".

Definition result_filename (chapter_num : Z) : str :=
  u "第" ++ fmt_02d chapter_num ++ u "章.md".

(** [read_chapter_content]: [None] when the file is absent or cannot be
    read. *)
Definition read_chapter_content (chapter_num : Z) (chapters_raw : gmap str str)
    : option str :=
  chapters_raw !! raw_filename chapter_num.

(** [Posted:|\[.*楼\]|梦中的王子] *)
Definition placeholder_noise_re : regex :=
  Alt (lit (u "Posted:"))
  (Alt (seq [chr (ch "["); star dot; chr (ch "楼"); chr (ch "]")])
       (lit (u "梦中的王子"))).

Definition placeholder_document (chapter_num : Z) : str :=
  heading chapter_num ++ u "本章节在原文档中缺失。".

(** [generate_placeholder]: the result directory after, and [True]. *)
Definition generate_placeholder (chapter_num : Z) (result : gmap str str)
    : bool * gmap str str :=
  (true, <[result_filename chapter_num := placeholder_document chapter_num]> result).

(** [process_chapter_sop]: the directory of raw chapters, the result
    directory before; the value returned and the result directory after. *)
Definition process_chapter_sop (chapter_num : Z) (chapters_raw : gmap str str)
    (result : gmap str str) : bool * gmap str str :=
  match read_chapter_content chapter_num chapters_raw with
  | None => (false, result)
  | Some content =>
    if negb (nonempty content) || negb (nonempty (strip content))
    then (false, result)
    else if Nat.ltb (length (strip content)) MISSING_CHAPTER_MAX_SIZE
            && is_match (re_search placeholder_noise_re content)
            && negb (is_match (re_search marker_re content))
    then generate_placeholder chapter_num result
    else
      let formatted_content := format_chapter_content_sop content chapter_num in
      if negb (nonempty (strip formatted_content))
         || eqb (strip formatted_content) (u "本章节内容为空。")
      then generate_placeholder chapter_num result
      else
        let md_content := generate_markdown chapter_num formatted_content in
        (true, <[result_filename chapter_num := md_content]> result)
  end.

(** The counters of [process_batch] and the result directory. *)
Record batch_state : Type := BatchState {
  success_count : nat;
  placeholder_count : nat;
  fail_count : nat;
  result_dir : gmap str str
}.

(** The body of the loop [for i in range(start_chapter, end_chapter + 1)]. *)
Definition batch_step (missing_chapters : list Z) (chapters_raw : gmap str str)
    (st : batch_state) (i : Z) : batch_state :=
  if bool_decide (i ∈ missing_chapters) then
    let '(ok, result) := generate_placeholder i (result_dir st) in
    {| success_count := success_count st;
       placeholder_count :=
         if ok then S (placeholder_count st) else placeholder_count st;
       fail_count := fail_count st;
       result_dir := result |}
  else
    let '(ok, result) := process_chapter_sop i chapters_raw (result_dir st) in
    {| success_count := if ok then S (success_count st) else success_count st;
       placeholder_count := placeholder_count st;
       fail_count := if ok then fail_count st else S (fail_count st);
       result_dir := result |}.

(** [range(a, b + 1)]. *)
Definition range_incl (a b : Z) : list Z := seqZ a (b + 1 - a).

(** [process_batch]. *)
Definition process_batch (start_chapter end_chapter : Z)
    (missing_chapters : list Z) (chapters_raw result : gmap str str)
    : batch_state :=
  fold_left (batch_step missing_chapters chapters_raw)
            (range_incl start_chapter end_chapter)
            {| success_count := 0; placeholder_count := 0; fail_count := 0;
               result_dir := result |}.

End ReusableDriver.

(** ** process_chapters_batch.py: the loop over a range of chapters *)

Module BatchRange.
Import Py Re Batch.

(** How [process_chapters_range] ends: with its two counters, or with the
    exception of a call it made. *)
Inductive range_outcome : Type :=
| Counted (success_count skip_count : nat)
| RangeRaised.

Section Clock.

Variable isoformat : nat -> str.

(** The loop [for chapter_num in range(start, end + 1)]. *)
Fixpoint range_loop (chapters : list Z) (success_count skip_count : nat)
    (w : world) : range_outcome * world :=
  match chapters with
  | [] => (Counted success_count skip_count, w)
  | chapter_num :: rest =>
    match process_chapter isoformat chapter_num w with
    | (Returned true, w') => range_loop rest (S success_count) skip_count w'
    | (Returned false, w') => range_loop rest success_count (S skip_count) w'
    | (Raised, w') => (RangeRaised, w')
    end
  end.

Definition process_chapters_range (start finish : Z) (w : world)
    : range_outcome * world :=
  range_loop (ReusableDriver.range_incl start finish) 0 0 w.

End Clock.

End BatchRange.

(** ** Vocabulary of the statements and sample inputs *)

Import Py Re AnalyzeChapters ExtractChapters CleanText.

Local Open Scope N_scope.

Definition digit_step (acc : N) (c : char) : N :=
  acc * 10 + default 0 (digit_value c).

(** The reading of a zero-padded number: [int] with a sign. *)
Definition read_int (s : str) : Z :=
  match s with
  | 45 :: r => (- int_digits r)%Z
  | _ => int_digits s
  end.

(** A text that does not begin with white space. *)
Definition head_ok (s : str) : bool :=
  match s with [] => true | a :: _ => negb (isspace a) end.

(** A text that [strip] leaves as it is. *)
Definition trimmed (s : str) : Prop :=
  head_ok s = true /\ head_ok (rev s) = true.

(** A sentence as the paragraph loop stores it: stripped and not empty. *)
Definition sentence_ok (s : str) : Prop := s <> [] /\ trimmed s.

(** A paragraph longer than the minimum paragraph length. *)
Definition long (pmin : nat) (p : str) : Prop := (pmin < length p)%nat.



Definition c8_line : str := u "第3回 绝代风华 林黛玉初入荣国府，众人皆惊。".

Definition c8_long_line : str :=
  u "第3回 绝代风华 林黛玉初入荣国府，众人皆惊，一时间满堂寂静，无人敢出一言。".

Definition c10_entry : gmap str str :=
  <[u "status" := u "completed"]> (<[u "notes" := u "ok"]> ∅).

Definition c10_ledger : gmap str (gmap str str) :=
  <[u "7" := c10_entry]> ∅.

Definition c10_world : Batch.world :=
  {| Batch.progress_file := Some c10_ledger;
     Batch.chapters_raw := <[u "chapter_07.txt" := u "第7回 正文。"]> ∅;
     Batch.result := ∅; Batch.clock := 0 |}.

Definition c2_corpus : str := u "第1回
甲
第2回
乙
".

Definition c2_lines : list str := readlines c2_corpus.

Definition c2_config : AnalyzeChapters.config :=
  AnalyzeChapters.generate_config (AnalyzeChapters.find_chapters c2_lines).

Local Open Scope Z_scope.

Definition marker (n : Z) : chapter :=
  {| line := n; original := u "第" ++ str_of_Z n ++ u "回"; number := n;
     pattern_type := u "阿拉伯数字+回"; line_content := [] |}.

Definition c9_markers : list chapter := map marker [1; 2; 4; 7].

(** A record whose slice is written to the output directory. *)
Definition writes (lines : list str) (r : chapter_record) : Prop :=
  exists a content,
    extract_chapter_content lines (start_line r) (end_line r)
    = Some (a :: content).

Definition c4_corpus : str := u "第5回
初稿
初稿续
第5回
改稿
改稿续
".

Definition c4_lines : list str := readlines c4_corpus.

Definition c4_config : config :=
  generate_config (find_chapters c4_lines).

Definition c4_first : chapter_record :=
  {| r_number := 5; r_original := u "第5回";
     r_pattern_type := u "阿拉伯数字+回";
     start_line := 1; end_line := Some 3 |}.

Definition c4_second : chapter_record :=
  {| r_number := 5; r_original := u "第5回";
     r_pattern_type := u "阿拉伯数字+回";
     start_line := 4; end_line := None |}.

(** A match whose numeral resolves. *)
Definition resolves (m : caps) : bool :=
  match (extract_chapter_number (group_text m 0)).1 with
  | Some _ => true
  | None => false
  end.

(** The marker made of a match, when its numeral resolves. *)
Definition marker_of (line_num : Z) (ln ptype : str) (m : caps)
    : option chapter :=
  match (extract_chapter_number (group_text m 0)).1 with
  | Some n =>
    Some {| line := line_num; original := group_text m 0; number := n;
            pattern_type := ptype; line_content := take 100 (strip ln) |}
  | None => None
  end.

(** A pattern family that matches the line somewhere. *)
Definition has_match (ln : str) (p : regex * str) : bool :=
  match re_finditer p.1 ln with [] => false | _ :: _ => true end.

(** The marker of a line: in the first family that matches the line, the
    first match whose numeral resolves. *)
Definition marker_in (pats : list (regex * str)) (line_num : Z) (ln : str)
    : option chapter :=
  match List.find (has_match ln) pats with
  | Some p =>
    match List.find resolves (re_finditer p.1 ln) with
    | Some m => marker_of line_num ln p.2 m
    | None => None
    end
  | None => None
  end.

Definition marker_of_line : Z -> str -> option chapter := marker_in patterns.

(** The marker of a line as the specification words it: in the first family
    that matches the line, the first match, dropped when its numeral does
    not resolve. *)
Definition first_match_marker (line_num : Z) (ln : str) : option chapter :=
  match List.find (has_match ln) patterns with
  | Some p =>
    match re_finditer p.1 ln with
    | m :: _ => marker_of line_num ln p.2 m
    | [] => None
    end
  | None => None
  end.

Definition option_list {A : Type} (o : option A) : list A :=
  match o with Some a => [a] | None => [] end.

(** The markers of a text, line by line. *)
Fixpoint markers_from (k : Z) (lines : list str) : list chapter :=
  match lines with
  | [] => []
  | ln :: rest => option_list (marker_of_line k ln) ++ markers_from (k + 1) rest
  end.

(** Markers in the order of the lines, at most one for a line. *)
Definition line_ordered (l : list chapter) : Prop :=
  StronglySorted (fun a b => line a < line b) l.

Definition c5_lines : list str := [u "第一百一回 第二回"; u "无标记"; u "第3章 第4回 第5回"].

Local Open Scope N_scope.





Local Open Scope Z_scope.







Local Open Scope N_scope.

Definition c6_first_sentence : str :=
  concat (replicate 26 (u "春眠不觉晓，")) ++ u "花落知多少。".

Definition c6_second_sentence : str :=
  concat (replicate 6 (u "处处闻啼鸟，")) ++ u "夜来风雨声。".

Definition c6_content : str :=
  u "第1回" ++ [LF] ++ c6_first_sentence ++ c6_second_sentence ++ u "完。".


(** *** Vocabulary of the further properties *)

Local Open Scope Z_scope.

(** The markers that carry a given number, in the order of the list. *)
Definition markers_numbered (n : Z) (chapters : list chapter) : list chapter :=
  filter (fun c => number c = n) chapters.

(** The markers of a given pattern family. *)
Definition markers_of_family (p : str) (chapters : list chapter) : list chapter :=
  filter (fun c => pattern_type c = p) chapters.

Definition x4_lines : list str := [u "甲" ++ [LF]; u "乙" ++ [LF]; u "丙" ++ [LF]].

Definition x5_config : config :=
  {| total_chapters := 1;
     chapters_of := [ {| r_number := 1; r_original := u "第1回";
                         r_pattern_type := u "阿拉伯数字+回";
                         start_line := 1; end_line := None |} ] |}.

Definition x9_raw : gmap str str :=
  <[u "chapter_03.txt" := u "第3回 话说当日天色已晚。"]>
    (<[u "chapter_04.txt" := u "   "]> ∅).

(** What [process_chapter_sop] can do to the result directory: nothing, or
    one document written under the name of the chapter, a heading and a
    body that is not empty. *)
Definition sop_effect (chapter_num : Z) (result : gmap str str)
    (r : bool * gmap str str) : Prop :=
  (r.1 = false /\ r.2 = result)
  \/ (r.1 = true /\ exists body, body <> [] /\
        r.2 = <[ReusableDriver.result_filename chapter_num
                 := Reusable.heading chapter_num ++ body]> result).

(** A ledger that differs from another at one chapter at most, with the same
    chapters in it. *)
Definition same_but (key : str) (p p' : gmap str (gmap str str)) : Prop :=
  dom p' = dom p /\ forall k, k <> key -> p' !! k = p !! k.

(** The world after [process_chapter], against the world before: the raw
    chapters as they were, the ledger changed at the chapter at most, the
    results changed at the document of the chapter at most. *)
Definition touches_only (chapter_num : Z) (p : gmap str (gmap str str))
    (w w' : Batch.world) : Prop :=
  Batch.chapters_raw w' = Batch.chapters_raw w
  /\ (exists p', Batch.progress_file w' = Some p'
                 /\ same_but (str_of_Z chapter_num) p p')
  /\ forall name, name <> Batch.result_filename chapter_num ->
       Batch.result w' !! name = Batch.result w !! name.

Definition x11_entry : gmap str str := <[u "status" := u "pending"]> ∅.
Definition x11_ledger : gmap str (gmap str str) :=
  <[u "3" := x11_entry]> (<[u "4" := x11_entry]> ∅).
Definition x11_world : Batch.world :=
  {| Batch.progress_file := Some x11_ledger;
     Batch.chapters_raw :=
       <[u "chapter_03.txt" := u "第3回" ++ [LF] ++ u "话说当日天色已晚。"]> ∅;
     Batch.result := ∅; Batch.clock := 0 |}.
Definition x11_clock (n : nat) : str := str_of_N (N.of_nat n).

(** The entry of a chapter that was skipped at the reading [t] of the
    clock. *)
Definition skipped_entry (t : str) (e : gmap str str) : gmap str str :=
  <[u "notes" := u "内容为空或缺失"]>
    (<[u "status" := u "skipped"]>
       (<[u "updated_at" := t]> (<[u "status" := u "processing"]> e))).

(** The entry of a chapter that was processed, with the three readings of
    the clock. *)
Definition completed_entry (t0 t1 t2 : str) (e : gmap str str) : gmap str str :=
  <[u "notes" := u "已完成格式校对和Markdown生成"]>
    (<[u "updated_at" := t2]>
       (<[u "created_at" := t1]>
          (<[u "status" := u "completed"]>
             (<[u "updated_at" := t0]> (<[u "status" := u "processing"]> e))))).

(** A raw chapter that [process_chapter] takes for missing. *)
Definition raw_missing (content : option str) : bool :=
  match content with
  | None => true
  | Some c => negb (Batch.nonempty c) || startswith (strip c) (u "本章节")
  end.

Definition x14_done : gmap str str := <[u "status" := u "completed"]> ∅.
Definition x14_world : Batch.world :=
  {| Batch.progress_file :=
       Some (<[u "1" := x14_done]> (<[u "2" := x14_done]> ∅));
     Batch.chapters_raw := ∅; Batch.result := ∅; Batch.clock := 7 |}.

(** Every chapter of the list has the status [completed] in the ledger. *)
Definition all_completed (chapters : list Z) (w : Batch.world) : Prop :=
  exists p, Batch.progress_file w = Some p
    /\ forall i, i ∈ chapters ->
         exists e, p !! str_of_Z i = Some e
                   /\ e !! u "status" = Some (u "completed").

Local Open Scope N_scope.

(** Groups whose texts are made of characters with a property. *)
Definition caps_ok (P : char -> Prop) (c : caps) : Prop :=
  Forall (fun jv => Forall P jv.2) c.

(** A match state whose remaining text and groups are made of such
    characters. *)
Definition state_ok (P : char -> Prop) (m : mstate) : Prop :=
  Forall P m.1.2 /\ caps_ok P m.2.

(** The control characters the normalizer erases. *)
Definition control (c : char) : bool :=
  (c <=? 8) || ((11 <=? c) && (c <=? 12))
  || ((14 <=? c) && (c <=? 31)) || (c =? 127).

(** A character the normalizer may leave in its output. *)
Definition clean_char (c : char) : Prop := c <> CR /\ control c = false.

(** The text the first loop of [format_chapter_content] keeps. *)
Definition kept_text (content : str) (chapter_num : Z) : str :=
  join [LF] (Batch.keep_lines chapter_num (split_char LF content) true []).

(** The paragraphs its second loop builds from that text, the open one
    closed. *)
Definition merged_paragraphs (content : str) (chapter_num : Z) : list str :=
  let '(current_para, paragraphs) :=
    Batch.merge_lines (split_char LF (kept_text content chapter_num)) [] [] in
  match current_para with
  | [] => paragraphs
  | _ => paragraphs ++ [join (u " ") current_para]
  end.

(** ** Lemmas and theorems *)

Lemma digit_value_ascii (d : N) : d < 10 -> digit_value (48 + d) = Some d.
Proof.
  intros Hd.
  assert (H : d = 0 \/ d = 1 \/ d = 2 \/ d = 3 \/ d = 4 \/ d = 5 \/ d = 6
              \/ d = 7 \/ d = 8 \/ d = 9) by lia.
  repeat (destruct H as [-> | H]; [reflexivity |]). subst. reflexivity.
Qed.

Lemma digits_fuel_app (f : nat) : forall n acc,
  digits_fuel f n acc = digits_fuel f n [] ++ acc.
Proof.
  induction f as [| f IH]; intros n acc; simpl; [reflexivity |].
  destruct (n <? 10); [reflexivity |].
  rewrite (IH _ (_ :: acc)), (IH _ [_]), <- app_assoc. reflexivity.
Qed.

Lemma digits_fuel_value (f : nat) : forall n,
  n < 2 ^ N.of_nat f ->
  fold_left digit_step (digits_fuel f n []) 0 = n.
Proof.
  induction f as [| f IH]; intros n Hn.
  - simpl in *. lia.
  - simpl digits_fuel.
    assert (Hm : n mod 10 < 10) by (apply N.mod_lt; lia).
    destruct (N.ltb_spec n 10) as [Hlt | Hge].
    + simpl. unfold digit_step. rewrite digit_value_ascii by assumption.
      simpl. rewrite N.mod_small by assumption. reflexivity.
    + rewrite digits_fuel_app, fold_left_app, IH.
      * simpl. unfold digit_step. rewrite digit_value_ascii by assumption.
        simpl. pose proof (N.div_mod n 10). lia.
      * replace (N.of_nat (S f)) with (N.succ (N.of_nat f)) in Hn by lia.
        rewrite N.pow_succ_r' in Hn.
        apply N.Div0.div_lt_upper_bound. lia.
Qed.

Lemma int_digits_str_of_N (n : N) : int_digits (str_of_N n) = Z.of_N n.
Proof.
  unfold int_digits, str_of_N. f_equal.
  apply (digits_fuel_value (S (N.to_nat (N.log2 n))) n).
  replace (N.of_nat (S (N.to_nat (N.log2 n)))) with (N.succ (N.log2 n)) by lia.
  destruct n as [| p]; [reflexivity |].
  apply N.log2_spec. lia.
Qed.

Lemma digits_fuel_all_digits (f : nat) : forall n acc,
  Forall (fun c => is_ascii_digit c = true) acc ->
  Forall (fun c => is_ascii_digit c = true) (digits_fuel f n acc).
Proof.
  induction f as [| f IH]; intros n acc Hacc; simpl; [assumption |].
  assert (Hm : n mod 10 < 10) by (apply N.mod_lt; lia).
  assert (Hd : is_ascii_digit (48 + n mod 10) = true).
  { unfold is_ascii_digit. generalize dependent (n mod 10). intros m Hm.
    apply andb_true_intro. split; apply N.leb_le; lia. }
  destruct (n <? 10); [| apply IH]; constructor; assumption.
Qed.

Lemma str_of_N_all_digits (n : N) :
  Forall (fun c => is_ascii_digit c = true) (str_of_N n).
Proof. apply digits_fuel_all_digits. constructor. Qed.

Lemma digits_fuel_nonempty (f : nat) : forall n acc,
  digits_fuel (S f) n acc <> [].
Proof.
  induction f as [| f IH]; intros n acc.
  - simpl. destruct (n <? 10); discriminate.
  - change (digits_fuel (S (S f)) n acc)
      with (if n <? 10 then (48 + n mod 10) :: acc
            else digits_fuel (S f) (n / 10) ((48 + n mod 10) :: acc)).
    destruct (n <? 10); [discriminate | apply IH].
Qed.

Lemma str_of_N_nonempty (n : N) : str_of_N n <> [].
Proof. apply digits_fuel_nonempty. Qed.

Lemma read_fmt_02d (z : Z) : read_int (fmt_02d z) = z.
Proof.
  destruct z as [| p | p]; [reflexivity | |].
  - unfold fmt_02d.
    pose proof (str_of_N_all_digits (Z.to_N (Z.pos p))) as Hall.
    pose proof (int_digits_str_of_N (Z.to_N (Z.pos p))) as Hval.
    pose proof (str_of_N_nonempty (Z.to_N (Z.pos p))) as Hne.
    destruct (str_of_N (Z.to_N (Z.pos p))) as [| a [| b r]] eqn:E;
      [congruence | |].
    + assert (Ha : a <> 45).
      { inversion Hall as [| ? ? Hd _]; subst. unfold is_ascii_digit in Hd.
        apply andb_prop in Hd as [Hd _]. apply N.leb_le in Hd. lia. }
      transitivity (int_digits [a]); [| rewrite Hval; simpl; lia].
      unfold read_int. reflexivity.
    + assert (Ha : a <> 45).
      { inversion Hall as [| ? ? Hd _]; subst. unfold is_ascii_digit in Hd.
        apply andb_prop in Hd as [Hd _]. apply N.leb_le in Hd. lia. }
      unfold read_int.
      destruct a as [| pa]; [rewrite Hval; simpl; lia |].
      do 6 (destruct pa as [pa | pa |]; try (rewrite Hval; simpl; lia)).
      all: try congruence.
  - unfold fmt_02d, read_int. rewrite int_digits_str_of_N. lia.
Qed.

Lemma fmt_02d_inj (a b : Z) : fmt_02d a = fmt_02d b -> a = b.
Proof.
  intros H. rewrite <- (read_fmt_02d a), <- (read_fmt_02d b), H. reflexivity.
Qed.

Lemma dropwhile_head_ok (s : str) : head_ok (dropwhile isspace s) = true.
Proof.
  induction s as [| a s IH]; simpl; [reflexivity |].
  destruct (isspace a) eqn:E; [assumption |]. simpl. rewrite E. reflexivity.
Qed.

Lemma dropwhile_id (s : str) : head_ok s = true -> dropwhile isspace s = s.
Proof.
  destruct s as [| a s]; simpl; [reflexivity |].
  destruct (isspace a); [discriminate | reflexivity].
Qed.

Lemma dropwhile_split (p : char -> bool) (s : str) :
  exists pre, s = pre ++ dropwhile p s.
Proof.
  induction s as [| a s [pre IH]]; simpl.
  - exists []. reflexivity.
  - destruct (p a).
    + exists (a :: pre). simpl. f_equal. assumption.
    + exists []. reflexivity.
Qed.

Lemma head_ok_app (s t : str) :
  head_ok s = true -> s <> [] -> head_ok (s ++ t) = true.
Proof. destruct s; [congruence | simpl; auto]. Qed.

Lemma strip_trimmed (s : str) : trimmed (strip s).
Proof.
  unfold trimmed, strip, rstrip, lstrip.
  pose proof (dropwhile_head_ok s) as Hv.
  set (v := dropwhile isspace s) in *. clearbody v.
  split.
  - destruct (dropwhile_split isspace (rev v)) as [pre Hpre].
    set (d := dropwhile isspace (rev v)) in *.
    assert (Hv' : v = rev d ++ rev pre).
    { rewrite <- (rev_involutive v), Hpre, rev_app_distr. reflexivity. }
    destruct (rev d) as [| a r] eqn:E; [reflexivity |].
    rewrite Hv' in Hv. simpl in *. assumption.
  - rewrite rev_involutive. apply dropwhile_head_ok.
Qed.

Lemma strip_id (s : str) : trimmed s -> strip s = s.
Proof.
  intros [H1 H2]. unfold strip, rstrip, lstrip.
  rewrite (dropwhile_id s H1), (dropwhile_id _ H2). apply rev_involutive.
Qed.


Lemma join_snoc (sep : str) (l : list str) (s : str) :
  join sep (l ++ [s]) =
  match l with [] => s | _ => join sep l ++ sep ++ s end.
Proof.
  induction l as [| a l IH]; [reflexivity |].
  destruct l as [| b l]; [reflexivity |].
  change (join sep ((a :: b :: l) ++ [s]))
    with (a ++ sep ++ join sep ((b :: l) ++ [s])).
  rewrite IH.
  change (join sep (a :: b :: l)) with (a ++ sep ++ join sep (b :: l)).
  rewrite <- !app_assoc. reflexivity.
Qed.

Lemma join_cons (sep : str) (a : str) (l : list str) :
  join sep (a :: l) = match l with [] => a | _ => a ++ sep ++ join sep l end.
Proof. destruct l; reflexivity. Qed.

Lemma join_trimmed (sep : str) (l : list str) :
  l <> [] -> Forall sentence_ok l ->
  join sep l <> [] /\ trimmed (join sep l).
Proof.
  intros Hne Hall.
  assert (Hhead : join sep l <> [] /\ head_ok (join sep l) = true).
  { destruct l as [| a l]; [congruence |].
    inversion Hall as [| ? ? [Ha [Ha1 _]] _]; subst.
    rewrite join_cons. destruct l.
    - auto.
    - split; [destruct a; [congruence | discriminate] |].
      apply (head_ok_app a); assumption. }
  split; [apply Hhead |]. split; [apply Hhead |].
  destruct (exists_last Hne) as [l' [s ->]].
  apply Forall_app in Hall as [_ Hs].
  inversion Hs as [| ? ? [Hs0 [_ Hs2]] _]; subst.
  rewrite join_snoc. destruct l'.
  - assumption.
  - rewrite !rev_app_distr, <- app_assoc.
    apply (head_ok_app (rev s)); [assumption |].
    destruct s; [congruence |]. simpl. destruct (rev s); discriminate.
Qed.

Lemma list_pair_ind {A : Type} (P : list A -> Prop) :
  P [] -> (forall a, P [a]) -> (forall a b l, P l -> P (a :: b :: l)) ->
  forall l, P l.
Proof.
  intros H0 H1 H2 l.
  assert (H : P l /\ forall a, P (a :: l)).
  { induction l as [| b l [IHl IHc]]; [auto |]. split; [apply IHc | auto]. }
  apply H.
Qed.

Lemma Forall_removelast {A : Type} (P : A -> Prop) (l : list A) :
  Forall P l -> Forall P (removelast l).
Proof.
  induction 1 as [| a l Ha Hl IH]; [constructor |].
  simpl. destruct l; [constructor | constructor; assumption].
Qed.

Section ParagraphBounds.

Variables pmin nmin : nat.

Lemma close_paragraph_snoc (cur paras : list str) :
  cur <> [] -> Forall sentence_ok cur ->
  Reusable.close_paragraph cur paras = paras ++ [join (u " ") cur].
Proof.
  intros Hne Hall. unfold Reusable.close_paragraph.
  destruct (join_trimmed (u " ") cur Hne Hall) as [Hj Ht].
  rewrite (strip_id _ Ht).
  destruct (join (u " ") cur); [congruence | reflexivity].
Qed.

(** What one iteration of the paragraph loop can do: leave the list of
    paragraphs as it is, or close one paragraph. *)
Lemma paragraph_step_cases (p0 : str) (tl : list str) (cur paras : list str) :
  Forall sentence_ok cur ->
  let r := Reusable.paragraph_step pmin nmin p0 tl cur paras in
  (Forall sentence_ok r.1 /\ r.2 = paras)
  \/ (r.1 = [] /\
      r.2 = paras ++ [join (u " ") (cur ++ [strip (p0 ++ hd [] tl)])] /\
      forall p1 p2 tl2, tl = p1 :: p2 :: tl2 ->
        (pmin < length (join (u " ") (cur ++ [strip (p0 ++ p1)])))%nat
        /\ (nmin < length (strip (p2 ++ hd [] tl2)))%nat).
Proof.
  intros Hcur r. subst r. unfold Reusable.paragraph_step.
  destruct (Reusable.nonempty (strip p0)); [| left; auto].
  assert (Hhd : match tl with p1 :: _ => p1 | [] => [] end = hd [] tl)
    by (destruct tl; reflexivity).
  rewrite Hhd. clear Hhd.
  set (sentence := strip (p0 ++ hd [] tl)).
  destruct (Reusable.nonempty sentence) eqn:Hne; [| left; auto].
  assert (Hcur' : Forall sentence_ok (cur ++ [sentence])).
  { apply Forall_app; split; [assumption |]. constructor; [| constructor].
    split; [destruct sentence; [discriminate | congruence] |].
    apply strip_trimmed. }
  assert (Hnn : cur ++ [sentence] <> []) by (destruct cur; discriminate).
  destruct (Reusable.ends_sentence sentence); [| left; auto].
  destruct tl as [| p1 [| p2 tl2]].
  - right. rewrite close_paragraph_snoc by assumption.
    split; [reflexivity |]. split; [reflexivity |]. intros; discriminate.
  - right. rewrite close_paragraph_snoc by assumption.
    split; [reflexivity |]. split; [reflexivity |]. intros; discriminate.
  - assert (Hhd : match tl2 with p3 :: _ => p3 | [] => [] end = hd [] tl2)
      by (destruct tl2; reflexivity).
    rewrite Hhd. clear Hhd.
    destruct (Nat.ltb_spec nmin (length (strip (p2 ++ hd [] tl2))));
      [| left; auto].
    destruct (Nat.ltb_spec pmin (length (join (u " ") (cur ++ [sentence]))));
      [| left; auto].
    right. simpl andb. cbv iota. rewrite close_paragraph_snoc by assumption.
    split; [reflexivity |]. split; [reflexivity |].
    intros p1' p2' tl2' E. injection E as <- <- <-. auto.
Qed.

Lemma build_paragraphs_bound (l : list str) : forall cur paras,
  Forall sentence_ok cur -> Forall (long pmin) paras ->
  let r := Reusable.build_paragraphs pmin nmin l cur paras in
  Forall sentence_ok r.1 /\ Forall (long pmin) (removelast r.2)
  /\ (r.1 <> [] -> Forall (long pmin) r.2).
Proof.
  induction l as [| p0 | p0 p1 rest IH] using list_pair_ind;
    intros cur paras Hcur Hparas.
  - simpl. auto using Forall_removelast.
  - simpl.
    destruct (paragraph_step_cases p0 [] cur paras Hcur)
      as [[H1 H2] | [H1 [H2 _]]]; rewrite H2.
    + auto using Forall_removelast.
    + rewrite H1, removelast_last. split; [constructor |]. split; [assumption |].
      congruence.
  - change (Reusable.build_paragraphs pmin nmin (p0 :: p1 :: rest) cur paras)
      with (Reusable.build_paragraphs pmin nmin rest
              (Reusable.paragraph_step pmin nmin p0 (p1 :: rest) cur paras).1
              (Reusable.paragraph_step pmin nmin p0 (p1 :: rest) cur paras).2).
    destruct (paragraph_step_cases p0 (p1 :: rest) cur paras Hcur)
      as [[H1 H2] | [H1 [H2 H3]]]; rewrite H2.
    + apply IH; assumption.
    + rewrite H1. destruct rest as [| p2 tl2].
      * simpl. rewrite removelast_last. split; [constructor |].
        split; [assumption | congruence].
      * apply IH; [constructor |].
        apply Forall_app; split; [assumption |]. constructor; [| constructor].
        apply (H3 p1 p2 tl2 eq_refl).
Qed.

Lemma paragraphs_of_parts_bound (parts : list str) :
  Forall (long pmin) (removelast (Reusable.paragraphs_of_parts pmin nmin parts)).
Proof.
  unfold Reusable.paragraphs_of_parts.
  pose proof (build_paragraphs_bound parts [] [] ltac:(constructor) ltac:(constructor))
    as [H1 [H2 H3]].
  destruct (Reusable.build_paragraphs pmin nmin parts [] []) as [cur paras].
  simpl in *. destruct cur as [| s cur]; [assumption |].
  rewrite close_paragraph_snoc by (assumption || discriminate).
  rewrite removelast_last. apply H3. discriminate.
Qed.

End ParagraphBounds.

Lemma removelast_lookup {A : Type} (l : list A) (i : nat) (x : A) :
  l !! i = Some x -> (S i < length l)%nat -> removelast l !! i = Some x.
Proof.
  revert i. induction l as [| a l IH]; intros i Hi Hlen; [discriminate |].
  destruct l as [| b l]; [simpl in Hlen; lia |].
  destruct i as [| i]; [assumption |].
  change (removelast (a :: b :: l)) with (a :: removelast (b :: l)).
  simpl. apply IH; [assumption | simpl in *; lia].
Qed.

Lemma paragraph_step_closes (pmin nmin : nat) (p0 p1 p2 : str)
    (tl cur paras : list str) :
  (Reusable.paragraph_step pmin nmin p0 (p1 :: p2 :: tl) cur paras).2 <> paras ->
  (pmin < length (join (u " ") (cur ++ [strip (p0 ++ p1)])))%nat
  /\ (nmin < length (strip (p2 ++ hd [] tl)))%nat.
Proof.
  unfold Reusable.paragraph_step.
  destruct (Reusable.nonempty (strip p0)); [| simpl; congruence].
  destruct (Reusable.nonempty (strip (p0 ++ p1))); [| simpl; congruence].
  destruct (Reusable.ends_sentence (strip (p0 ++ p1))); [| simpl; congruence].
  assert (Hhd : match tl with p3 :: _ => p3 | [] => [] end = hd [] tl)
    by (destruct tl; reflexivity).
  rewrite Hhd.
  destruct (Nat.ltb_spec nmin (length (strip (p2 ++ hd [] tl))));
    [| simpl; congruence].
  destruct (Nat.ltb_spec pmin
              (length (join (u " ") (cur ++ [strip (p0 ++ p1)]))));
    [| simpl; congruence].
  auto.
Qed.

(** C6.  For every raw text and every pair of thresholds, each paragraph the
    reflow emits, the last one apart, is longer than the minimum paragraph
    length; and an iteration of the loop that has a next sentence closes a
    paragraph only when the accumulated text is longer than the paragraph
    threshold and the next sentence is longer than the sentence threshold. *)
Theorem reflow_paragraph_min_length
    (paragraph_min_length next_sentence_min_length : nat)
    (content : str) (chapter_num : Z) :
  (forall i p,
     Reusable.reflow_paragraphs paragraph_min_length next_sentence_min_length
       content chapter_num !! i = Some p ->
     (S i < length (Reusable.reflow_paragraphs paragraph_min_length
                      next_sentence_min_length content chapter_num))%nat ->
     (paragraph_min_length < length p)%nat)
  /\ (forall p0 p1 p2 tl current_para paragraphs,
        (Reusable.paragraph_step paragraph_min_length next_sentence_min_length
           p0 (p1 :: p2 :: tl) current_para paragraphs).2 <> paragraphs ->
        (paragraph_min_length
           < length (join (u " ") (current_para ++ [strip (p0 ++ p1)])))%nat
        /\ (next_sentence_min_length < length (strip (p2 ++ hd [] tl)))%nat).
Proof.
  split.
  - intros i p Hi Hlen.
    pose proof (paragraphs_of_parts_bound paragraph_min_length
                  next_sentence_min_length
                  (re_split Reusable.sentence_end_re
                     (Reusable.full_text_of
                        (Reusable.filtered
                           (Reusable.filter_lines chapter_num 0
                              (split_char LF content) Reusable.initial)))))
      as Hall.
    apply (removelast_lookup _ _ _ Hi) in Hlen.
    rewrite Forall_forall in Hall. apply Hall.
    eapply list_elem_of_lookup_2. exact Hlen.
  - intros p0 p1 p2 tl cur paras. apply paragraph_step_closes.
Qed.





(** C8 as stated fails: the reflow of the line does not give the body
    without the subtitle. *)
Lemma reflow_scenario_keeps_short_subtitle :
  Reusable.generate_markdown 3 (Reusable.format_chapter_content_sop c8_line 3)
  <> u "# 第3章

林黛玉初入荣国府，众人皆惊。".
Proof. vm_compute. discriminate. Qed.

(** C8, corrected.  The line [第3回 绝代风华 林黛玉初入荣国府，众人皆惊。]
    with chapter number 3 reflows to the heading [# 第3章] and the single
    paragraph [绝代风华 林黛玉初入荣国府，众人皆惊。]: the subtitle stays,
    because the text after it has 14 characters and the cut asks for more
    than 20.  With a text of more than 20 characters after it the subtitle
    is cut. *)
Theorem reflow_scenario :
  Reusable.generate_markdown 3 (Reusable.format_chapter_content_sop c8_line 3)
  = u "# 第3章

绝代风华 林黛玉初入荣国府，众人皆惊。"
  /\ Reusable.generate_markdown 3
       (Reusable.format_chapter_content_sop c8_long_line 3)
     = u "# 第3章

林黛玉初入荣国府，众人皆惊，一时间满堂寂静，无人敢出一言。".
Proof. split; vm_compute; reflexivity. Qed.

(** C10.  When the ledger entry of the chapter has the status [completed],
    [process_chapter] returns [True] and leaves the ledger, the result
    directory and everything else as they were. *)
Theorem completed_chapter_is_skipped (isoformat : nat -> str)
    (chapter_num : Z) (w : Batch.world)
    (progress : gmap str (gmap str str)) (e : gmap str str) :
  Batch.progress_file w = Some progress ->
  progress !! str_of_Z chapter_num = Some e ->
  e !! u "status" = Some (u "completed") ->
  Batch.process_chapter isoformat chapter_num w = (Batch.Returned true, w).
Proof.
  intros Hfile Hentry Hstatus. unfold Batch.process_chapter.
  rewrite Hfile, Hentry. simpl default.
  rewrite bool_decide_eq_true_2 by assumption. reflexivity.
Qed.

(** A ledger in which chapter 7 is completed. *)
Lemma completed_chapter_is_skipped_witness :
  Batch.process_chapter (fun _ => []) 7 c10_world
  = (Batch.Returned true, c10_world).
Proof.
  apply (completed_chapter_is_skipped (fun _ => []) 7 c10_world
           c10_ledger c10_entry).
  - reflexivity.
  - vm_compute; reflexivity.
  - vm_compute; reflexivity.
Defined.

(** C2, a defect of the code.  The index gives the first record the lines 1
    to 2, and the slicer returns line 1 alone: it reads [end_line] as the
    line after the span. *)
Lemma slice_drops_end_line :
  map (fun r => (AnalyzeChapters.r_number r, AnalyzeChapters.start_line r,
                 AnalyzeChapters.end_line r))
      (AnalyzeChapters.chapters_of c2_config)
    = [(1%Z, 1%Z, Some 2%Z); (2%Z, 3%Z, None)]
  /\ ExtractChapters.extract_chapter_content c2_lines 1 (Some 2%Z)
       = Some (u "第1回
")
  /\ concat (ExtractChapters.slice c2_lines 0 2) = u "第1回
甲
"
  /\ ExtractChapters.extract_chapter_content c2_lines 3 None
       = Some (u "第2回
乙
").
Proof. repeat split; vm_compute; reflexivity. Qed.

Local Open Scope Z_scope.

Lemma min_of_spec (d : Z) (l : list Z) :
  min_of d l ∈ d :: l /\ forall k, k ∈ d :: l -> min_of d l <= k.
Proof.
  induction l as [| a l [IHin IHle]]; simpl.
  - split; [left |]. intros k Hk. apply list_elem_of_singleton in Hk. lia.
  - split.
    + destruct (Z.min_spec a (min_of d l)) as [[_ ->] | [_ ->]].
      * right. left.
      * apply elem_of_cons in IHin as [-> | Hin]; [left | right; right; exact Hin].
    + intros k Hk. apply elem_of_cons in Hk as [-> | Hk].
      * specialize (IHle d ltac:(left)). lia.
      * apply elem_of_cons in Hk as [-> | Hk]; [lia |].
        specialize (IHle k ltac:(right; exact Hk)). lia.
Qed.

Lemma max_of_spec (d : Z) (l : list Z) :
  max_of d l ∈ d :: l /\ forall k, k ∈ d :: l -> k <= max_of d l.
Proof.
  induction l as [| a l [IHin IHle]]; simpl.
  - split; [left |]. intros k Hk. apply list_elem_of_singleton in Hk. lia.
  - split.
    + destruct (Z.max_spec a (max_of d l)) as [[_ ->] | [_ ->]].
      * apply elem_of_cons in IHin as [-> | Hin]; [left | right; right; exact Hin].
      * right. left.
    + intros k Hk. apply elem_of_cons in Hk as [-> | Hk].
      * specialize (IHle d ltac:(left)). lia.
      * apply elem_of_cons in Hk as [-> | Hk]; [lia |].
        specialize (IHle k ltac:(right; exact Hk)). lia.
Qed.

Lemma elem_of_sorted_set (s : gset Z) (z : Z) : z ∈ sorted_set s <-> z ∈ s.
Proof.
  unfold sorted_set. rewrite merge_sort_Permutation. apply elem_of_elements.
Qed.

Lemma elem_of_range_set (lo hi z : Z) : z ∈ range_set lo hi <-> lo <= z < hi.
Proof.
  unfold range_set. rewrite elem_of_list_to_set, elem_of_seqZ. lia.
Qed.

Lemma sorted_set_sorted (s : gset Z) : Sorted Z.le (sorted_set s).
Proof. apply Sorted_merge_sort. intros x y; lia. Qed.

Lemma sorted_set_nodup (s : gset Z) : NoDup (sorted_set s).
Proof.
  unfold sorted_set. rewrite merge_sort_Permutation. apply NoDup_elements.
Qed.

Lemma find_missing_elem (c : chapter) (rest : list chapter) (z : Z) :
  z ∈ find_missing (c :: rest) <->
  min_of (number c) (map number rest) <= z <= max_of (number c) (map number rest)
  /\ z ∉ map number (c :: rest).
Proof.
  unfold find_missing. rewrite elem_of_sorted_set, elem_of_difference.
  rewrite elem_of_range_set, elem_of_list_to_set. intuition lia.
Qed.

(** C9.  When [lo] and [hi] are the least and the greatest number among the
    markers, [missing_numbers] holds exactly the integers of [[lo, hi]] that
    no marker has, in ascending order and without repetition; it is empty for
    one marker and for none. *)
Theorem missing_numbers_spec (chapters : list chapter) (lo hi : Z) :
  lo ∈ map number chapters -> hi ∈ map number chapters ->
  (forall k, k ∈ map number chapters -> lo <= k <= hi) ->
  (forall z, z ∈ missing_numbers (analyze_chapters chapters) <->
             lo <= z <= hi /\ z ∉ map number chapters)
  /\ Sorted Z.le (missing_numbers (analyze_chapters chapters))
  /\ NoDup (missing_numbers (analyze_chapters chapters))
  /\ ((length chapters <= 1)%nat ->
      missing_numbers (analyze_chapters chapters) = [])
  /\ missing_numbers (analyze_chapters []) = [].
Proof.
  intros Hlo Hhi Hbound. simpl missing_numbers.
  destruct chapters as [| c rest]; [inversion Hlo |].
  destruct (min_of_spec (number c) (map number rest)) as [Hmin_in Hmin_le].
  destruct (max_of_spec (number c) (map number rest)) as [Hmax_in Hmax_le].
  change (number c :: map number rest) with (map number (c :: rest)) in *.
  assert (Hmin : min_of (number c) (map number rest) = lo).
  { pose proof (Hmin_le lo Hlo). pose proof (Hbound _ Hmin_in). lia. }
  assert (Hmax : max_of (number c) (map number rest) = hi).
  { pose proof (Hmax_le hi Hhi). pose proof (Hbound _ Hmax_in). lia. }
  assert (Hiff : forall z, z ∈ find_missing (c :: rest) <->
                           lo <= z <= hi /\ z ∉ map number (c :: rest)).
  { intros z. rewrite find_missing_elem, Hmin, Hmax. reflexivity. }
  split; [exact Hiff |].
  split; [apply sorted_set_sorted |].
  split; [apply sorted_set_nodup |].
  split; [| reflexivity].
  intros Hlen. destruct rest as [| d rest]; [| simpl in Hlen; lia].
  assert (Hnone : forall z, z ∉ find_missing [c]).
  { intros z Hz. apply Hiff in Hz as [Hz1 Hz2].
    simpl in *. apply list_elem_of_singleton in Hlo, Hhi. subst.
    apply Hz2. replace z with (number c) by lia. left. }
  destruct (find_missing [c]) as [| z l]; [reflexivity |].
  exfalso. apply (Hnone z). left.
Qed.

(** The markers 1, 2, 4, 7 miss 3, 5, 6. *)
Lemma missing_numbers_spec_witness :
  (forall z, z ∈ missing_numbers (analyze_chapters c9_markers) <->
             1 <= z <= 7 /\ z ∉ map number c9_markers)
  /\ missing_numbers (analyze_chapters c9_markers) = [3; 5; 6].
Proof.
  split; [| vm_compute; reflexivity].
  apply (missing_numbers_spec c9_markers 1 7).
  - vm_compute. left.
  - vm_compute. do 3 right. left.
  - intros k Hk. vm_compute in Hk.
    repeat (apply elem_of_cons in Hk as [-> | Hk]; [lia |]). inversion Hk.
Defined.

Lemma chapter_filename_inj (a b : Z) :
  chapter_filename a = chapter_filename b -> a = b.
Proof.
  unfold chapter_filename. intros H.
  apply app_inv_head in H. apply app_inv_tail in H.
  apply fmt_02d_inj. exact H.
Qed.

Lemma extract_one_other (lines : list str) (st : gmap str str * nat)
    (r : chapter_record) (n : Z) :
  (r_number r = n -> ~ writes lines r) ->
  (extract_one lines st r).1 !! chapter_filename n = st.1 !! chapter_filename n.
Proof.
  intros H. unfold extract_one.
  destruct (extract_chapter_content lines (start_line r) (end_line r))
    as [[| a content] |] eqn:E; try reflexivity.
  simpl. apply lookup_insert_ne. intros Heq.
  apply chapter_filename_inj in Heq. apply (H Heq). exists a, content. exact E.
Qed.

Lemma extract_rest_keeps (lines : list str) (n : Z) (post : list chapter_record) :
  forall st,
  (forall r, r ∈ post -> r_number r = n -> ~ writes lines r) ->
  (fold_left (extract_one lines) post st).1 !! chapter_filename n
  = st.1 !! chapter_filename n.
Proof.
  induction post as [| r post IH]; intros st H; [reflexivity |].
  simpl. rewrite IH.
  - apply extract_one_other. intros Hn. apply (H r); [left | exact Hn].
  - intros r' Hr'. apply H. right. exact Hr'.
Qed.

Lemma write_placeholders_keeps (n : Z) (missing : list Z) :
  forall out, n ∉ missing ->
  write_placeholders missing out !! chapter_filename n
  = out !! chapter_filename n.
Proof.
  unfold write_placeholders.
  induction missing as [| m missing IH]; intros out H; [reflexivity |].
  simpl. rewrite IH.
  - apply lookup_insert_ne. intros Heq. apply chapter_filename_inj in Heq.
    apply H. subst. left.
  - intros Hin. apply H. right. exact Hin.
Qed.

(** C4, corrected.  When several records of the index have the same number,
    the file of that number holds the slice of the last of them whose slice
    is written: the slices are written in the order of the index, each over
    the one before. *)
Theorem last_duplicate_wins (lines : list str) (cfg : config)
    (out : gmap str str) (pre : list chapter_record) (r : chapter_record)
    (post : list chapter_record) (content : str) :
  chapters_of cfg = pre ++ r :: post ->
  extract_chapter_content lines (start_line r) (end_line r) = Some content ->
  content <> [] ->
  (forall r', r' ∈ post -> r_number r' = r_number r -> ~ writes lines r') ->
  (extract_all_chapters lines (Some cfg) out).2 !! chapter_filename (r_number r)
  = Some content.
Proof.
  intros Hcfg Hext Hne Hpost. unfold extract_all_chapters.
  rewrite Hcfg. clear Hcfg.
  destruct (pre ++ r :: post) as [| c0 cs] eqn:E;
    [destruct pre; discriminate |].
  rewrite <- E. clear E c0 cs. cbn [snd].
  rewrite write_placeholders_keeps.
  - unfold extract_found. rewrite fold_left_app. simpl fold_left.
    rewrite extract_rest_keeps by exact Hpost.
    unfold extract_one at 1. rewrite Hext.
    destruct content as [| a content]; [congruence |].
    simpl. apply lookup_insert_eq.
  - unfold missing_chapter_numbers.
    rewrite elem_of_sorted_set, elem_of_difference, elem_of_list_to_set.
    intros [_ Hnot]. apply Hnot.
    apply list_elem_of_fmap. exists r. split; [reflexivity |].
    apply elem_of_app. right. left.
Qed.

(** Two records numbered 5: the file holds the slice of the second. *)
Lemma last_duplicate_wins_witness :
  (extract_all_chapters c4_lines (Some c4_config) ∅).2
    !! chapter_filename 5
  = Some (u "第5回
改稿
改稿续
").
Proof.
  apply (last_duplicate_wins c4_lines c4_config ∅ [c4_first] c4_second []).
  - vm_compute; reflexivity.
  - vm_compute; reflexivity.
  - vm_compute; discriminate.
  - intros r' Hr'. inversion Hr'.
Defined.

(** C4 as stated fails: with two records numbered 5 the file of chapter 5
    does not hold the slice of the first. *)
Lemma first_duplicate_is_overwritten :
  chapters_of c4_config = [c4_first; c4_second]
  /\ extract_chapter_content c4_lines (start_line c4_first) (end_line c4_first)
     = Some (u "第5回
初稿
")
  /\ (extract_all_chapters c4_lines (Some c4_config) ∅).2
       !! chapter_filename 5
     <> extract_chapter_content c4_lines (start_line c4_first)
          (end_line c4_first).
Proof.
  split; [vm_compute; reflexivity |].
  split; [vm_compute; reflexivity |].
  vm_compute. discriminate.
Qed.

Lemma scan_matches_find (k : Z) (ln ptype : str) (ms : list caps) :
  scan_matches k ln ptype ms =
  match List.find resolves ms with
  | Some m => marker_of k ln ptype m
  | None => None
  end.
Proof.
  induction ms as [| m ms IH]; [reflexivity |].
  cbn [scan_matches List.find]. unfold resolves at 1.
  destruct (extract_chapter_number (group_text m 0)) as [[n |] t] eqn:E;
    cbn [fst]; [| exact IH].
  unfold marker_of. rewrite E. reflexivity.
Qed.

Lemma scan_patterns_find (k : Z) (ln : str) (pats : list (regex * str)) :
  forall chapters,
  scan_patterns k ln pats chapters
  = chapters ++ option_list (marker_in pats k ln).
Proof.
  induction pats as [| [pattern ptype] pats IH]; intros chapters.
  - simpl. rewrite app_nil_r. reflexivity.
  - simpl scan_patterns. unfold marker_in. simpl List.find.
    unfold has_match at 1. simpl fst.
    rewrite scan_matches_find.
    destruct (re_finditer pattern ln) as [| m ms] eqn:E.
    + simpl List.find. rewrite IH. reflexivity.
    + cbn [fst snd]. rewrite E.
      destruct (List.find resolves (m :: ms)) as [m' |]; simpl.
      * destruct (marker_of k ln ptype m'); simpl;
          [reflexivity | rewrite app_nil_r; reflexivity].
      * rewrite app_nil_r. reflexivity.
Qed.

Lemma scan_lines_markers (lines : list str) : forall k chapters,
  scan_lines k lines chapters = chapters ++ markers_from k lines.
Proof.
  induction lines as [| ln rest IH]; intros k chapters;
    cbn [scan_lines markers_from].
  - rewrite app_nil_r. reflexivity.
  - rewrite IH, scan_patterns_find, <- app_assoc. reflexivity.
Qed.

Lemma marker_in_line (pats : list (regex * str)) (k : Z) (ln : str) (c : chapter) :
  marker_in pats k ln = Some c -> line c = k.
Proof.
  unfold marker_in, marker_of.
  destruct (List.find (has_match ln) pats) as [p |]; [| discriminate].
  destruct (List.find resolves (re_finditer p.1 ln)) as [m |]; [| discriminate].
  destruct (extract_chapter_number (group_text m 0)).1; [| discriminate].
  intros H. injection H as <-. reflexivity.
Qed.

Lemma markers_from_ordered (lines : list str) : forall k,
  Forall (fun c => k <= line c) (markers_from k lines)
  /\ line_ordered (markers_from k lines).
Proof.
  induction lines as [| ln rest IH]; intros k; cbn [markers_from].
  - split; constructor.
  - destruct (IH (k + 1)) as [Hge Hsorted].
    assert (Hge' : Forall (fun c => k < line c) (markers_from (k + 1) rest)).
    { eapply Forall_impl; [exact Hge |]. simpl. intros; lia. }
    destruct (marker_of_line k ln) as [c |] eqn:E; simpl.
    + apply marker_in_line in E. split.
      * constructor; [lia |]. eapply Forall_impl; [exact Hge' |].
        simpl. intros; lia.
      * constructor; [exact Hsorted |]. rewrite E. exact Hge'.
    + split; [| exact Hsorted].
      eapply Forall_impl; [exact Hge' |]. simpl. intros; lia.
Qed.

Lemma sort_by_line_sorted (l : list chapter) :
  line_ordered l -> sort_by_line l = l.
Proof.
  induction 1 as [| c l Hl IH Hc]; [reflexivity |].
  unfold sort_by_line in *. simpl. rewrite IH.
  destruct l as [| d l]; [reflexivity |].
  simpl. inversion Hc as [| ? ? Hd _]; subst.
  destruct (Z.leb_spec (line c) (line d)); [reflexivity | lia].
Qed.

Lemma markers_from_range (lines : list str) : forall k,
  Forall (fun c => k <= line c < k + Z.of_nat (length lines))
         (markers_from k lines).
Proof.
  induction lines as [| ln rest IH]; intros k; [constructor |].
  cbn [markers_from]. apply Forall_app. split.
  - destruct (marker_of_line k ln) as [c |] eqn:E; [| constructor].
    apply marker_in_line in E. constructor; [| constructor].
    simpl length. lia.
  - eapply Forall_impl; [apply (IH (k + 1)) |].
    simpl. intros c Hc. lia.
Qed.

(** C5, corrected.  The scanner gives, line by line and in the order of the
    lines, at most one marker for a line: in the first pattern family that
    matches the line, the first match whose numeral resolves.  Every marker
    carries a number and the number of a line of the input. *)
Theorem find_chapters_first_resolvable (lines : list str) :
  find_chapters lines = markers_from 1 lines
  /\ line_ordered (find_chapters lines)
  /\ Forall (fun c => 1 <= line c <= Z.of_nat (length lines))
            (find_chapters lines).
Proof.
  assert (H : find_chapters lines = markers_from 1 lines).
  { unfold find_chapters. rewrite scan_lines_markers. simpl app.
    apply sort_by_line_sorted. apply markers_from_ordered. }
  rewrite H. split; [reflexivity |]. split; [apply markers_from_ordered |].
  eapply Forall_impl; [apply markers_from_range |].
  simpl. intros c Hc. lia.
Qed.

(** C5 as stated fails: the first match of the family on the line has no
    number, and the marker of the line is made of the second. *)
Lemma second_match_is_taken :
  map (fun c => (line c, original c, number c)) (find_chapters c5_lines)
    = [(1, u "第二回", 2); (3, u "第4回", 4)]
  /\ first_match_marker 1 (u "第一百一回 第二回") = None
  /\ marker_of_line 1 (u "第一百一回 第二回")
     <> first_match_marker 1 (u "第一百一回 第二回").
Proof.
  split; [vm_compute; reflexivity |].
  split; [vm_compute; reflexivity |].
  vm_compute. discriminate.
Qed.

Local Open Scope N_scope.









Local Open Scope Z_scope.








Local Open Scope N_scope.

(** The bound at the thresholds of the module, on a text of two paragraphs. *)
Lemma reflow_paragraph_min_length_witness :
  Reusable.reflow_paragraphs Reusable.PARAGRAPH_MIN_LENGTH
    Reusable.NEXT_SENTENCE_MIN_LENGTH c6_content 1
  = [c6_first_sentence; c6_second_sentence ++ u " 完。"]
  /\ (Reusable.PARAGRAPH_MIN_LENGTH < length c6_first_sentence)%nat.
Proof.
  split; [vm_compute; reflexivity |].
  apply (proj1 (reflow_paragraph_min_length Reusable.PARAGRAPH_MIN_LENGTH
                  Reusable.NEXT_SENTENCE_MIN_LENGTH c6_content 1) 0%nat).
  - vm_compute; reflexivity.
  - vm_compute; lia.
Defined.

(** The span the slicer returns for a record with an end line: the lines
    from [s] to [e - 1]. *)
Lemma extract_stops_before_end_line (lines : list str) (s e : Z) :
  (1 <= s)%Z -> (s < e)%Z -> (e <= Z.of_nat (length lines))%Z ->
  ExtractChapters.extract_chapter_content lines s (Some e)
  = Some (concat (ExtractChapters.slice lines (s - 1) (e - 1))).
Proof.
  intros H1 H2 H3. unfold ExtractChapters.extract_chapter_content.
  rewrite Z.max_r by lia. rewrite Z.min_l by lia.
  destruct (Z.leb_spec (e - 1) (s - 1)); [lia | reflexivity].
Qed.

(** ** Further properties of the scripts *)

Local Open Scope Z_scope.

Lemma config_entries_end_lines (chapters : list chapter) :
  map end_line (config_entries chapters)
  = match chapters with
    | [] => []
    | _ :: rest => map (fun next => Some (line next - 1)) rest ++ [None]
    end.
Proof.
  induction chapters as [| c rest IH]; [reflexivity |].
  cbn [config_entries map end_line]. rewrite IH.
  destruct rest; reflexivity.
Qed.

(** X1.  The configuration [generate_config] builds has one record per
    marker, in the order of the markers, with the marker's number, text,
    pattern family and line; each record ends on the line before the next
    marker, and the last record has no end line. *)
Theorem generate_config_line_ranges (chapters : list chapter) :
  total_chapters (generate_config chapters) = length chapters
  /\ map r_number (chapters_of (generate_config chapters)) = map number chapters
  /\ map r_original (chapters_of (generate_config chapters))
     = map original chapters
  /\ map r_pattern_type (chapters_of (generate_config chapters))
     = map pattern_type chapters
  /\ map start_line (chapters_of (generate_config chapters)) = map line chapters
  /\ map end_line (chapters_of (generate_config chapters))
     = match chapters with
       | [] => []
       | _ :: rest => map (fun next => Some (line next - 1)) rest ++ [None]
       end.
Proof.
  split; [reflexivity |]. cbn [generate_config chapters_of].
  repeat split; try apply config_entries_end_lines;
    induction chapters as [| c rest IH]; try reflexivity;
    cbn [config_entries map]; rewrite IH; reflexivity.
Qed.

Lemma number_counts_lookup (n : Z) (chapters : list chapter) :
  forall m : gmap Z (list chapter),
  fold_left (fun m c => <[number c := default [] (m !! number c) ++ [c]]> m)
            chapters m !! n
  = match markers_numbered n chapters with
    | [] => m !! n
    | items => Some (default [] (m !! n) ++ items)
    end.
Proof.
  unfold markers_numbered.
  induction chapters as [| c rest IH]; intros m; [reflexivity |].
  cbn [fold_left]. rewrite IH. rewrite filter_cons.
  destruct (decide (number c = n)) as [-> | Hne].
  - rewrite lookup_insert_eq. cbn [default].
    destruct (filter (fun c0 => number c0 = n) rest) as [| d l].
    + reflexivity.
    + unfold id. rewrite <- app_assoc. reflexivity.
  - rewrite lookup_insert_ne by exact Hne. reflexivity.
Qed.

(** X2.  [analyze_chapters] reports a number as duplicated exactly when two
    markers or more carry it, and then lists all the markers that carry it,
    in the order of the scan. *)
Theorem duplicates_are_repeated_numbers (chapters : list chapter) (n : Z) :
  duplicates (analyze_chapters chapters) !! n
  = if (1 <? length (markers_numbered n chapters))%nat
    then Some (markers_numbered n chapters) else None.
Proof.
  cbn [analyze_chapters duplicates]. unfold number_counts.
  destruct (Nat.ltb_spec 1 (length (markers_numbered n chapters))) as [H | H].
  - apply map_lookup_filter_Some. split; [| exact H].
    rewrite number_counts_lookup. rewrite lookup_empty.
    destruct (markers_numbered n chapters); [simpl in H; lia | reflexivity].
  - apply map_lookup_filter_None. right. intros items Hitems.
    rewrite number_counts_lookup, lookup_empty in Hitems.
    destruct (markers_numbered n chapters) as [| d l] eqn:E; [discriminate |].
    injection Hitems as <-. cbn [snd default app]. lia.
Qed.

Lemma index_by_number_lookup (n : Z) (chapters : list chapter) :
  forall m : gmap Z chapter,
  fold_left (fun m c => <[number c := c]> m) chapters m !! n
  = match last (markers_numbered n chapters) with
    | Some c => Some c
    | None => m !! n
    end.
Proof.
  unfold markers_numbered.
  induction chapters as [| c rest IH]; intros m; [reflexivity |].
  cbn [fold_left]. rewrite IH, filter_cons.
  destruct (decide (number c = n)) as [-> | Hne].
  - rewrite lookup_insert_eq.
    destruct (filter (fun c0 => number c0 = n) rest) as [| d l];
      [reflexivity |].
    rewrite last_cons_cons.
    destruct (last (d :: l)) eqn:E; [reflexivity |].
    apply last_None in E. discriminate.
  - rewrite lookup_insert_ne by exact Hne. reflexivity.
Qed.

Lemma count_patterns_lookup (p : str) (chapters : list chapter) :
  forall m : gmap str nat,
  fold_left (fun m c => <[pattern_type c := S (default O (m !! pattern_type c))]> m)
            chapters m !! p
  = match markers_of_family p chapters with
    | [] => m !! p
    | items => Some (default O (m !! p) + length items)%nat
    end.
Proof.
  unfold markers_of_family.
  induction chapters as [| c rest IH]; intros m; [reflexivity |].
  cbn [fold_left]. rewrite IH, filter_cons.
  destruct (decide (pattern_type c = p)) as [-> | Hne].
  - rewrite lookup_insert_eq. cbn [default].
    destruct (filter (fun c0 => pattern_type c0 = p) rest) as [| d l].
    + unfold id. cbn [length]. f_equal. lia.
    + unfold id. cbn [length default]. f_equal. lia.
  - rewrite lookup_insert_ne by exact Hne. reflexivity.
Qed.

(** X3.  The tables of [analyze_chapters]: [total] counts the markers, the
    index by number holds for each number the last marker that carries it,
    and the index by pattern holds for each pattern family the number of its
    markers, with no entry for a family without marker. *)
Theorem statistics_tables (chapters : list chapter) (n : Z) (p : str) :
  total (analyze_chapters chapters) = length chapters
  /\ by_number (analyze_chapters chapters) !! n
     = last (markers_numbered n chapters)
  /\ by_pattern (analyze_chapters chapters) !! p
     = match markers_of_family p chapters with
       | [] => None
       | items => Some (length items)
       end.
Proof.
  split; [reflexivity |]. split.
  - cbn [analyze_chapters by_number]. unfold index_by_number.
    rewrite index_by_number_lookup, lookup_empty.
    destruct (last (markers_numbered n chapters)); reflexivity.
  - cbn [analyze_chapters by_pattern]. unfold count_patterns.
    rewrite count_patterns_lookup, lookup_empty.
    destruct (markers_of_family p chapters); reflexivity.
Qed.

(** X4.  The edges of [extract_chapter_content].  With no end line the
    slice runs from the start line to the end of a non-empty file; a start
    line after the last line is refused; an end line at or before the start
    line is refused (the range is taken for invalid). *)
Theorem extract_chapter_content_edges (lines : list str) (s : Z) :
  (lines <> [] -> s <= Z.of_nat (length lines) ->
   extract_chapter_content lines s None
   = Some (concat (drop (Z.to_nat (s - 1)) lines)))
  /\ (forall e, Z.of_nat (length lines) < s ->
        extract_chapter_content lines s e = None)
  /\ (forall e, 1 <= s -> e <= s ->
        extract_chapter_content lines s (Some e) = None).
Proof.
  unfold extract_chapter_content. split; [| split].
  - intros Hne Hs.
    assert (0 < Z.of_nat (length lines)) by (destruct lines; [congruence | simpl; lia]).
    destruct (Z.leb_spec (Z.of_nat (length lines)) (Z.max 0 (s - 1))); [lia |].
    f_equal. f_equal. unfold slice.
    rewrite take_ge; [f_equal; lia |]. rewrite length_drop. lia.
  - intros e Hs.
    assert (H : (match e with
                 | Some e0 => Z.min (e0 - 1) (Z.of_nat (length lines))
                 | None => Z.of_nat (length lines)
                 end <=? Z.max 0 (s - 1)) = true).
    { apply Z.leb_le. destruct e; lia. }
    rewrite H. reflexivity.
  - intros e H1 H2.
    destruct (Z.leb_spec (Z.min (e - 1) (Z.of_nat (length lines)))
                (Z.max 0 (s - 1))); [reflexivity | lia].
Qed.

Lemma extract_chapter_content_edges_witness :
  extract_chapter_content x4_lines 2 None = Some (u "乙" ++ [LF] ++ u "丙" ++ [LF])
  /\ extract_chapter_content x4_lines 4 None = None
  /\ extract_chapter_content x4_lines 2 (Some 2) = None.
Proof.
  destruct (extract_chapter_content_edges x4_lines 2) as [H1 [_ H3]].
  destruct (extract_chapter_content_edges x4_lines 4) as [_ [H2 _]].
  split; [| split].
  - rewrite H1; [vm_compute; reflexivity | discriminate | vm_compute; discriminate].
  - apply H2. vm_compute; reflexivity.
  - apply H3; lia.
Defined.

Lemma write_placeholders_writes (n : Z) (missing : list Z) :
  forall out,
  n ∈ missing \/ out !! chapter_filename n = Some (placeholder_content n) ->
  write_placeholders missing out !! chapter_filename n
  = Some (placeholder_content n).
Proof.
  unfold write_placeholders.
  induction missing as [| m missing IH]; intros out H.
  - destruct H as [H | H]; [inversion H | exact H].
  - cbn [fold_left]. apply IH.
    destruct (decide (m = n)) as [-> | Hne].
    + right. apply lookup_insert_eq.
    + destruct H as [H | H].
      * left. apply elem_of_cons in H as [-> | H]; [congruence | exact H].
      * right. rewrite lookup_insert_ne; [exact H |].
        intros Heq. apply chapter_filename_inj in Heq. congruence.
Qed.

(** X5.  With a non-empty index, [extract_all_chapters] succeeds and leaves
    a placeholder file for every number of 1..100 that no record of the
    index carries. *)
Theorem missing_chapter_gets_placeholder (lines : list str) (cfg : config)
    (out : gmap str str) (n : Z) :
  chapters_of cfg <> [] ->
  1 <= n <= 100 ->
  n ∉ map r_number (chapters_of cfg) ->
  (extract_all_chapters lines (Some cfg) out).1 = true
  /\ (extract_all_chapters lines (Some cfg) out).2 !! chapter_filename n
     = Some (placeholder_content n).
Proof.
  intros Hne Hn Hnot. unfold extract_all_chapters.
  destruct (chapters_of cfg) as [| c cs] eqn:E; [congruence |].
  split; [reflexivity |]. cbn [snd].
  apply write_placeholders_writes. left.
  unfold missing_chapter_numbers.
  rewrite elem_of_sorted_set, elem_of_difference, elem_of_range_set,
    elem_of_list_to_set.
  split; [lia | exact Hnot].
Qed.

Lemma missing_chapter_gets_placeholder_witness :
  (extract_all_chapters x4_lines (Some x5_config) ∅).2 !! chapter_filename 17
  = Some (u "本章节（第17章）在原文档中缺失。" ++ [LF]).
Proof.
  refine (eq_trans
            (proj2 (missing_chapter_gets_placeholder x4_lines x5_config ∅ 17
                      _ _ _)) _).
  - vm_compute; discriminate.
  - lia.
  - vm_compute. intros H. apply list_elem_of_singleton in H. discriminate.
  - vm_compute; reflexivity.
Defined.

Lemma extract_found_frame (lines : list str) (name : str)
    (chapters : list chapter_record) : forall st,
  (forall n, name <> chapter_filename n) ->
  (fold_left (extract_one lines) chapters st).1 !! name = st.1 !! name.
Proof.
  induction chapters as [| c cs IH]; intros st H; [reflexivity |].
  cbn [fold_left]. rewrite IH by exact H. unfold extract_one.
  destruct (extract_chapter_content lines (start_line c) (end_line c))
    as [[| a content] |]; try reflexivity.
  cbn [fst]. apply lookup_insert_ne. intros Heq. apply (H (r_number c)).
  symmetry. exact Heq.
Qed.

Lemma write_placeholders_frame (name : str) (missing : list Z) : forall out,
  (forall n, name <> chapter_filename n) ->
  write_placeholders missing out !! name = out !! name.
Proof.
  unfold write_placeholders.
  induction missing as [| m missing IH]; intros out H; [reflexivity |].
  cbn [fold_left]. rewrite IH by exact H.
  apply lookup_insert_ne. intros Heq. apply (H m). symmetry. exact Heq.
Qed.

(** X6.  [extract_all_chapters] fails without writing anything when the
    configuration cannot be read or holds no record, and in every case it
    leaves alone the files that are not chapter files. *)
Theorem extract_all_chapters_frame (lines : list str) (cfg : option config)
    (out : gmap str str) :
  ((cfg = None \/ exists c, cfg = Some c /\ chapters_of c = []) ->
   extract_all_chapters lines cfg out = (false, out))
  /\ (forall name, (forall n, name <> chapter_filename n) ->
        (extract_all_chapters lines cfg out).2 !! name = out !! name).
Proof.
  split.
  - intros [-> | [c [-> Hc]]]; [reflexivity |].
    unfold extract_all_chapters. rewrite Hc. reflexivity.
  - intros name H. unfold extract_all_chapters.
    destruct cfg as [c |]; [| reflexivity].
    destruct (chapters_of c) as [| c0 cs]; [reflexivity |]. cbn [snd].
    rewrite write_placeholders_frame by exact H.
    unfold extract_found. apply extract_found_frame. exact H.
Qed.

Lemma extract_all_chapters_frame_witness :
  extract_all_chapters x4_lines None (<[u "notes.txt" := u "备注"]> ∅)
  = (false, <[u "notes.txt" := u "备注"]> ∅)
  /\ (extract_all_chapters x4_lines (Some x5_config)
        (<[u "notes.txt" := u "备注"]> ∅)).2 !! u "notes.txt"
     = Some (u "备注").
Proof.
  destruct (extract_all_chapters_frame x4_lines None
              (<[u "notes.txt" := u "备注"]> ∅)) as [H1 _].
  destruct (extract_all_chapters_frame x4_lines (Some x5_config)
              (<[u "notes.txt" := u "备注"]> ∅)) as [_ H2].
  split.
  - apply H1. left. reflexivity.
  - rewrite H2; [vm_compute; reflexivity |].
    intros n Heq. apply (f_equal (fun s => hd 0%N s)) in Heq.
    vm_compute in Heq. discriminate.
Defined.

Local Open Scope N_scope.

Lemma ascii_digit_isdecimal (c : char) :
  is_ascii_digit c = true -> isdecimal c = true.
Proof.
  unfold is_ascii_digit. intros H. apply andb_prop in H as [H1 H2].
  apply N.leb_le in H1, H2. unfold isdecimal.
  replace c with (48 + (c - 48)) by lia.
  rewrite digit_value_ascii by lia. reflexivity.
Qed.

Lemma isdigit_str_of_N (n : N) : isdigit (str_of_N n) = true.
Proof.
  unfold isdigit.
  pose proof (str_of_N_nonempty n) as Hne.
  pose proof (str_of_N_all_digits n) as Hall.
  destruct (str_of_N n) as [| a s]; [congruence |].
  apply forallb_forall. intros c Hc. apply ascii_digit_isdecimal.
  rewrite Forall_forall in Hall. apply Hall. apply list_elem_of_In. exact Hc.
Qed.

(** X7.  [normalize_chapter_number] reads back every natural number from
    its decimal writing, also above 100. *)
Theorem normalize_decimal_round_trip (n : N) :
  Reusable.normalize_chapter_number (str_of_Z (Z.of_N n)) = Some (Z.of_N n).
Proof.
  assert (Hs : str_of_Z (Z.of_N n) = str_of_N n).
  { destruct n; reflexivity. }
  unfold Reusable.normalize_chapter_number.
  rewrite Hs, isdigit_str_of_N, int_digits_str_of_N. reflexivity.
Qed.

Section ParagraphShape.

Variables pmin nmin : nat.

Lemma close_paragraph_ok (cur paras : list str) :
  Forall sentence_ok cur -> Forall sentence_ok paras ->
  Forall sentence_ok (Reusable.close_paragraph cur paras).
Proof.
  intros Hcur Hparas. destruct cur as [| s cur].
  - unfold Reusable.close_paragraph. simpl. exact Hparas.
  - rewrite close_paragraph_snoc by (assumption || discriminate).
    apply Forall_app. split; [exact Hparas |].
    constructor; [| constructor].
    apply join_trimmed; [discriminate | exact Hcur].
Qed.

Lemma paragraph_step_ok (p0 : str) (tl cur paras : list str) :
  Forall sentence_ok cur -> Forall sentence_ok paras ->
  Forall sentence_ok (Reusable.paragraph_step pmin nmin p0 tl cur paras).1
  /\ Forall sentence_ok (Reusable.paragraph_step pmin nmin p0 tl cur paras).2.
Proof.
  intros Hcur Hparas. unfold Reusable.paragraph_step.
  destruct (Reusable.nonempty (strip p0)); [| auto].
  set (sentence := strip (p0 ++ match tl with p1 :: _ => p1 | [] => [] end)).
  destruct (Reusable.nonempty sentence) eqn:Hne; [| auto].
  assert (Hcur' : Forall sentence_ok (cur ++ [sentence])).
  { apply Forall_app; split; [assumption |]. constructor; [| constructor].
    split; [destruct sentence; [discriminate | congruence] |].
    apply strip_trimmed. }
  destruct (Reusable.ends_sentence sentence); [| auto].
  destruct tl as [| p1 [| p2 tl2]].
  - split; [constructor | apply close_paragraph_ok; assumption].
  - split; [constructor | apply close_paragraph_ok; assumption].
  - match goal with |- context [if ?b then _ else _] => destruct b end.
    + split; [constructor | apply close_paragraph_ok; assumption].
    + auto.
Qed.

Lemma build_paragraphs_ok (l : list str) : forall cur paras,
  Forall sentence_ok cur -> Forall sentence_ok paras ->
  Forall sentence_ok (Reusable.build_paragraphs pmin nmin l cur paras).1
  /\ Forall sentence_ok (Reusable.build_paragraphs pmin nmin l cur paras).2.
Proof.
  induction l as [| p0 | p0 p1 rest IH] using list_pair_ind;
    intros cur paras Hcur Hparas.
  - auto.
  - apply paragraph_step_ok; assumption.
  - change (Reusable.build_paragraphs pmin nmin (p0 :: p1 :: rest) cur paras)
      with (Reusable.build_paragraphs pmin nmin rest
              (Reusable.paragraph_step pmin nmin p0 (p1 :: rest) cur paras).1
              (Reusable.paragraph_step pmin nmin p0 (p1 :: rest) cur paras).2).
    destruct (paragraph_step_ok p0 (p1 :: rest) cur paras Hcur Hparas).
    apply IH; assumption.
Qed.

Lemma paragraphs_of_parts_ok (parts : list str) :
  Forall sentence_ok (Reusable.paragraphs_of_parts pmin nmin parts).
Proof.
  unfold Reusable.paragraphs_of_parts.
  pose proof (build_paragraphs_ok parts [] [] ltac:(constructor)
                ltac:(constructor)) as [H1 H2].
  destruct (Reusable.build_paragraphs pmin nmin parts [] []) as [cur paras].
  cbn [fst snd] in *. destruct cur; [exact H2 |].
  apply close_paragraph_ok; assumption.
Qed.

End ParagraphShape.

(** X8.  The text [format_chapter_content_sop] returns is its paragraphs
    joined by one blank line, and no paragraph is empty or starts or ends
    with white space; this holds for every setting of the two length
    constants. *)
Theorem reflow_paragraphs_shape
    (paragraph_min_length next_sentence_min_length : nat)
    (content : str) (chapter_num : Z) :
  Forall (fun p => p <> [] /\ trimmed p)
    (Reusable.reflow_paragraphs paragraph_min_length next_sentence_min_length
       content chapter_num)
  /\ Reusable.format_with paragraph_min_length next_sentence_min_length
       content chapter_num
     = join [LF; LF]
         (Reusable.reflow_paragraphs paragraph_min_length
            next_sentence_min_length content chapter_num).
Proof.
  assert (H : Forall sentence_ok
                (Reusable.reflow_paragraphs paragraph_min_length
                   next_sentence_min_length content chapter_num))
    by apply paragraphs_of_parts_ok.
  split; [exact H |].
  unfold Reusable.format_with, Reusable.format_lines.
  change (Reusable.reflow_lines paragraph_min_length next_sentence_min_length
            (split_char LF content) chapter_num)
    with (Reusable.reflow_paragraphs paragraph_min_length
            next_sentence_min_length content chapter_num).
  destruct (Reusable.reflow_paragraphs paragraph_min_length
              next_sentence_min_length content chapter_num) as [| p ps];
    [reflexivity |].
  apply strip_id. apply join_trimmed; [discriminate | exact H].
Qed.

Local Open Scope Z_scope.

Lemma result_filename_inj (a b : Z) :
  ReusableDriver.result_filename a = ReusableDriver.result_filename b -> a = b.
Proof.
  unfold ReusableDriver.result_filename. intros H.
  apply app_inv_head in H. apply app_inv_tail in H.
  apply fmt_02d_inj. exact H.
Qed.

Lemma generate_placeholder_effect (n : Z) (result : gmap str str) :
  sop_effect n result (ReusableDriver.generate_placeholder n result).
Proof.
  right. split; [reflexivity |]. exists (u "本章节在原文档中缺失。").
  split; [vm_compute; discriminate | reflexivity].
Qed.

Lemma process_chapter_sop_effect (n : Z) (raw result : gmap str str) :
  sop_effect n result (ReusableDriver.process_chapter_sop n raw result).
Proof.
  unfold ReusableDriver.process_chapter_sop.
  destruct (ReusableDriver.read_chapter_content n raw) as [content |];
    [| left; auto].
  destruct (negb (Reusable.nonempty content)
            || negb (Reusable.nonempty (strip content))); [left; auto |].
  match goal with |- context [if ?b then _ else _] => destruct b end;
    [apply generate_placeholder_effect |].
  destruct (negb (Reusable.nonempty
                    (strip (Reusable.format_chapter_content_sop content n)))
            || _) eqn:E; [apply generate_placeholder_effect |].
  right. split; [reflexivity |].
  apply orb_false_elim in E as [E _]. apply negb_false_iff in E.
  unfold Reusable.generate_markdown. rewrite E. cbn [negb].
  exists (Reusable.format_chapter_content_sop content n).
  split; [| reflexivity].
  intros H. rewrite H in E. discriminate.
Qed.

(** X9.  The three outcomes of [process_chapter_sop].  A raw chapter that
    is absent, or holds only white space, gives [False] and writes nothing;
    any other raw chapter gives [True] and writes exactly one file, the one
    of the chapter, which starts with the chapter heading and goes on with a
    non-empty body (the formatted text, or the placeholder sentence). *)
Theorem process_chapter_sop_outcome (chapter_num : Z)
    (chapters_raw result : gmap str str) :
  (chapters_raw !! ReusableDriver.raw_filename chapter_num = None ->
   ReusableDriver.process_chapter_sop chapter_num chapters_raw result
   = (false, result))
  /\ (forall content,
        chapters_raw !! ReusableDriver.raw_filename chapter_num = Some content ->
        strip content = [] ->
        ReusableDriver.process_chapter_sop chapter_num chapters_raw result
        = (false, result))
  /\ (forall content,
        chapters_raw !! ReusableDriver.raw_filename chapter_num = Some content ->
        strip content <> [] ->
        (ReusableDriver.process_chapter_sop chapter_num chapters_raw result).1
        = true
        /\ exists body, body <> [] /\
           (ReusableDriver.process_chapter_sop chapter_num chapters_raw result).2
           = <[ReusableDriver.result_filename chapter_num
                := Reusable.heading chapter_num ++ body]> result).
Proof.
  split; [| split].
  - intros H. unfold ReusableDriver.process_chapter_sop,
      ReusableDriver.read_chapter_content. rewrite H. reflexivity.
  - intros content H Hs. unfold ReusableDriver.process_chapter_sop,
      ReusableDriver.read_chapter_content. rewrite H, Hs.
    rewrite orb_true_r. reflexivity.
  - intros content H Hs.
    destruct (process_chapter_sop_effect chapter_num chapters_raw result)
      as [[Hf _] | [Ht Hbody]]; [| auto].
    exfalso. revert Hf.
    unfold ReusableDriver.process_chapter_sop,
      ReusableDriver.read_chapter_content. rewrite H.
    assert (Hc : Reusable.nonempty content = true).
    { destruct content; [exfalso; apply Hs; reflexivity | reflexivity]. }
    assert (Hsc : Reusable.nonempty (strip content) = true).
    { destruct (strip content); [congruence | reflexivity]. }
    rewrite Hc, Hsc. cbn [negb orb].
    repeat match goal with
           | |- context [if ?b then _ else _] => destruct b
           end; discriminate.
Qed.

Lemma process_chapter_sop_outcome_witness :
  ReusableDriver.process_chapter_sop 5 x9_raw ∅ = (false, ∅)
  /\ ReusableDriver.process_chapter_sop 4 x9_raw ∅ = (false, ∅)
  /\ (ReusableDriver.process_chapter_sop 3 x9_raw ∅).1 = true.
Proof.
  destruct (process_chapter_sop_outcome 5 x9_raw ∅) as [H1 _].
  destruct (process_chapter_sop_outcome 4 x9_raw ∅) as [_ [H2 _]].
  destruct (process_chapter_sop_outcome 3 x9_raw ∅) as [_ [_ H3]].
  split; [| split].
  - apply H1. vm_compute; reflexivity.
  - apply (H2 (u "   ")); vm_compute; reflexivity.
  - apply (H3 (u "第3回 话说当日天色已晚。")).
    + vm_compute; reflexivity.
    + vm_compute; discriminate.
Defined.

Lemma batch_step_counts (missing : list Z) (raw : gmap str str)
    (st : ReusableDriver.batch_state) (i : Z) :
  (ReusableDriver.success_count (ReusableDriver.batch_step missing raw st i)
   + ReusableDriver.placeholder_count (ReusableDriver.batch_step missing raw st i)
   + ReusableDriver.fail_count (ReusableDriver.batch_step missing raw st i))%nat
  = S (ReusableDriver.success_count st + ReusableDriver.placeholder_count st
       + ReusableDriver.fail_count st)%nat.
Proof.
  unfold ReusableDriver.batch_step.
  destruct (bool_decide (i ∈ missing)).
  - cbn. lia.
  - destruct (ReusableDriver.process_chapter_sop i raw
                (ReusableDriver.result_dir st)) as [[|] r]; cbn; lia.
Qed.

Lemma batch_step_frame (missing : list Z) (raw : gmap str str)
    (st : ReusableDriver.batch_state) (i : Z) (name : str) :
  name <> ReusableDriver.result_filename i ->
  ReusableDriver.result_dir (ReusableDriver.batch_step missing raw st i) !! name
  = ReusableDriver.result_dir st !! name.
Proof.
  intros Hne. unfold ReusableDriver.batch_step.
  destruct (bool_decide (i ∈ missing)).
  - unfold ReusableDriver.generate_placeholder.
    cbn [ReusableDriver.result_dir].
    apply lookup_insert_ne. intros Heq. apply Hne. symmetry. exact Heq.
  - pose proof (process_chapter_sop_effect i raw (ReusableDriver.result_dir st))
      as H.
    destruct (ReusableDriver.process_chapter_sop i raw
                (ReusableDriver.result_dir st)) as [ok r].
    cbn [ReusableDriver.result_dir].
    destruct H as [[_ H] | [_ [body [_ H]]]]; cbn [snd] in H; subst r.
    + reflexivity.
    + apply lookup_insert_ne. intros Heq. apply Hne. symmetry. exact Heq.
Qed.

Lemma batch_fold_frame (missing : list Z) (raw : gmap str str) (name : str)
    (l : list Z) : forall st,
  (forall i, i ∈ l -> name <> ReusableDriver.result_filename i) ->
  ReusableDriver.result_dir
    (fold_left (ReusableDriver.batch_step missing raw) l st) !! name
  = ReusableDriver.result_dir st !! name.
Proof.
  induction l as [| j l IH]; intros st H; [reflexivity |].
  cbn [fold_left]. rewrite IH.
  - apply batch_step_frame. apply H. left.
  - intros i Hi. apply H. right. exact Hi.
Qed.

Lemma batch_fold_counts (missing : list Z) (raw : gmap str str) (l : list Z) :
  forall st,
  let st' := fold_left (ReusableDriver.batch_step missing raw) l st in
  (ReusableDriver.success_count st' + ReusableDriver.placeholder_count st'
   + ReusableDriver.fail_count st')%nat
  = (length l + (ReusableDriver.success_count st
                 + ReusableDriver.placeholder_count st
                 + ReusableDriver.fail_count st))%nat.
Proof.
  induction l as [| j l IH]; intros st; [reflexivity |].
  cbn [fold_left length]. cbv zeta in IH. rewrite IH, batch_step_counts. lia.
Qed.

Lemma batch_fold_placeholder (missing : list Z) (raw : gmap str str) (i : Z)
    (l : list Z) : forall st,
  NoDup l -> i ∈ l -> i ∈ missing ->
  ReusableDriver.result_dir
    (fold_left (ReusableDriver.batch_step missing raw) l st)
    !! ReusableDriver.result_filename i
  = Some (ReusableDriver.placeholder_document i).
Proof.
  induction l as [| j l IH]; intros st Hnd Hin Hmiss; [inversion Hin |].
  apply NoDup_cons in Hnd as [Hj Hnd]. cbn [fold_left].
  apply elem_of_cons in Hin as [-> | Hin].
  - rewrite batch_fold_frame.
    + unfold ReusableDriver.batch_step.
      rewrite bool_decide_eq_true_2 by exact Hmiss.
      unfold ReusableDriver.generate_placeholder.
      cbn [ReusableDriver.result_dir]. apply lookup_insert_eq.
    + intros k Hk Heq. apply result_filename_inj in Heq. subst. contradiction.
  - apply IH; assumption.
Qed.

(** X10.  [process_batch] counts every chapter of the range once, as a
    success, a placeholder or a failure; a chapter of the range that is
    listed as missing gets the placeholder document; files that are not the
    result file of a chapter of the range are left alone. *)
Theorem process_batch_summary (start_chapter end_chapter : Z)
    (missing_chapters : list Z) (chapters_raw result : gmap str str) :
  let st := ReusableDriver.process_batch start_chapter end_chapter
              missing_chapters chapters_raw result in
  (ReusableDriver.success_count st + ReusableDriver.placeholder_count st
   + ReusableDriver.fail_count st)%nat
  = Z.to_nat (end_chapter + 1 - start_chapter)
  /\ (forall i, start_chapter <= i <= end_chapter -> i ∈ missing_chapters ->
        ReusableDriver.result_dir st !! ReusableDriver.result_filename i
        = Some (ReusableDriver.placeholder_document i))
  /\ (forall name,
        (forall i, start_chapter <= i <= end_chapter ->
                   name <> ReusableDriver.result_filename i) ->
        ReusableDriver.result_dir st !! name = result !! name).
Proof.
  cbv zeta. unfold ReusableDriver.process_batch, ReusableDriver.range_incl.
  split; [| split].
  - rewrite batch_fold_counts.
    cbn [ReusableDriver.success_count ReusableDriver.placeholder_count
         ReusableDriver.fail_count].
    rewrite length_seqZ. lia.
  - intros i Hi Hmiss. apply batch_fold_placeholder.
    + apply NoDup_seqZ.
    + apply elem_of_seqZ. lia.
    + exact Hmiss.
  - intros name H. rewrite batch_fold_frame; [reflexivity |].
    intros i Hi. apply H. apply elem_of_seqZ in Hi. lia.
Qed.

Lemma process_batch_summary_witness :
  ReusableDriver.result_dir (ReusableDriver.process_batch 3 5 [5] x9_raw ∅)
    !! ReusableDriver.result_filename 5
  = Some (u "# 第5章" ++ [LF; LF] ++ u "本章节在原文档中缺失。")
  /\ ReusableDriver.success_count (ReusableDriver.process_batch 3 5 [5] x9_raw ∅)
     = 1%nat
  /\ ReusableDriver.fail_count (ReusableDriver.process_batch 3 5 [5] x9_raw ∅)
     = 1%nat.
Proof.
  split; [| split; vm_compute; reflexivity].
  destruct (process_batch_summary 3 5 [5] x9_raw ∅) as [_ [H _]].
  refine (eq_trans (H 5 _ _) _); [lia | left | vm_compute; reflexivity].
Defined.

Lemma same_but_refl (key : str) (p : gmap str (gmap str str)) : same_but key p p.
Proof. split; auto. Qed.

Lemma set_field_same_but (key field value : str)
    (p0 p p' : gmap str (gmap str str)) :
  same_but key p0 p -> Batch.set_field p key field value = Some p' ->
  same_but key p0 p'.
Proof.
  intros [Hd Hk]. unfold Batch.set_field.
  destruct (p !! key) as [e |] eqn:E; [| discriminate].
  intros H. injection H as <-. split.
  - rewrite dom_insert_L, <- Hd.
    apply subseteq_union_1_L, singleton_subseteq_l, elem_of_dom. eauto.
  - intros k Hne. rewrite lookup_insert_ne; [apply Hk; exact Hne |].
    intros Heq. apply Hne. symmetry. exact Heq.
Qed.

Lemma touches_only_intro (chapter_num : Z) (p px : gmap str (gmap str str))
    (w wx : Batch.world) :
  Batch.chapters_raw wx = Batch.chapters_raw w ->
  Batch.progress_file wx = Some px ->
  same_but (str_of_Z chapter_num) p px ->
  (forall name, name <> Batch.result_filename chapter_num ->
     Batch.result wx !! name = Batch.result w !! name) ->
  touches_only chapter_num p w wx.
Proof.
  intros Ha Hb Hc Hd. split; [exact Ha |]. split; [| exact Hd].
  exists px. split; assumption.
Qed.

Ltac frame_goal :=
  first [ reflexivity | assumption
        | intros ? ?; first [reflexivity | apply lookup_insert_ne; congruence] ].

(** X11.  What [process_chapter] touches.  Without a readable ledger, or
    for a chapter the ledger does not list, it raises and changes nothing.
    Otherwise the raw chapters are unchanged, the ledger keeps its chapters
    and every other chapter's entry, and no result file but the chapter's
    own is written. *)
Theorem process_chapter_touches_only (isoformat : nat -> str)
    (chapter_num : Z) (w : Batch.world) :
  (Batch.progress_file w = None ->
   Batch.process_chapter isoformat chapter_num w = (Batch.Raised, w))
  /\ (forall p, Batch.progress_file w = Some p ->
        p !! str_of_Z chapter_num = None ->
        Batch.process_chapter isoformat chapter_num w = (Batch.Raised, w))
  /\ (forall p, Batch.progress_file w = Some p ->
        touches_only chapter_num p w
          (Batch.process_chapter isoformat chapter_num w).2).
Proof.
  split; [| split].
  - intros H. unfold Batch.process_chapter. rewrite H. reflexivity.
  - intros p H Hk. unfold Batch.process_chapter. rewrite H, Hk.
    cbn [default]. rewrite lookup_empty.
    rewrite bool_decide_eq_false_2 by discriminate.
    unfold Batch.set_field. rewrite Hk. reflexivity.
  - intros p H. unfold Batch.process_chapter. rewrite H.
    pose proof (same_but_refl (str_of_Z chapter_num) p) as Hs.
    assert (Hw : touches_only chapter_num p w w)
      by (apply (touches_only_intro _ _ p); auto).
    destruct (bool_decide _); [exact Hw |].
    destruct (Batch.set_field p _ (u "status") (u "processing"))
      as [p1 |] eqn:E1; [| exact Hw].
    apply (set_field_same_but _ _ _ _ _ _ Hs) in E1.
    destruct (Batch.set_field p1 _ (u "updated_at") _) as [p2 |] eqn:E2;
      [| apply (touches_only_intro _ _ p); frame_goal].
    apply (set_field_same_but _ _ _ _ _ _ E1) in E2.
    match goal with |- context [if ?b then _ else _] => destruct b end.
    + destruct (Batch.set_field p2 _ (u "status") (u "skipped"))
        as [p3 |] eqn:E3;
        [| apply (touches_only_intro _ _ p2); frame_goal].
      apply (set_field_same_but _ _ _ _ _ _ E2) in E3.
      destruct (Batch.set_field p3 _ (u "notes") _) as [p4 |] eqn:E4;
        [| apply (touches_only_intro _ _ p2); frame_goal].
      apply (set_field_same_but _ _ _ _ _ _ E3) in E4.
      apply (touches_only_intro _ _ p4); frame_goal.
    + destruct (Batch.set_field p2 _ (u "status") (u "completed"))
        as [p3 |] eqn:E3;
        [| apply (touches_only_intro _ _ p2); frame_goal].
      apply (set_field_same_but _ _ _ _ _ _ E2) in E3.
      destruct (Batch.set_field p3 _ (u "created_at") _) as [p4 |] eqn:E4;
        [| apply (touches_only_intro _ _ p2); frame_goal].
      apply (set_field_same_but _ _ _ _ _ _ E3) in E4.
      destruct (Batch.set_field p4 _ (u "updated_at") _) as [p5 |] eqn:E5;
        [| apply (touches_only_intro _ _ p2); frame_goal].
      apply (set_field_same_but _ _ _ _ _ _ E4) in E5.
      destruct (Batch.set_field p5 _ (u "notes") _) as [p6 |] eqn:E6;
        [| apply (touches_only_intro _ _ p2); frame_goal].
      apply (set_field_same_but _ _ _ _ _ _ E5) in E6.
      apply (touches_only_intro _ _ p6); frame_goal.
Qed.

Lemma process_chapter_touches_only_witness :
  Batch.process_chapter x11_clock 9 x11_world = (Batch.Raised, x11_world)
  /\ touches_only 3 x11_ledger x11_world
       (Batch.process_chapter x11_clock 3 x11_world).2.
Proof.
  destruct (process_chapter_touches_only x11_clock 9 x11_world) as [_ [H1 _]].
  destruct (process_chapter_touches_only x11_clock 3 x11_world) as [_ [_ H2]].
  split.
  - apply (H1 x11_ledger); [reflexivity | vm_compute; reflexivity].
  - apply H2. reflexivity.
Defined.

Lemma set_field_present (key field value : str) (p : gmap str (gmap str str))
    (e : gmap str str) :
  p !! key = Some e ->
  Batch.set_field p key field value = Some (<[key := <[field := value]> e]> p).
Proof. intros H. unfold Batch.set_field. rewrite H. reflexivity. Qed.

Lemma set_field_again (key field value : str) (p : gmap str (gmap str str))
    (e : gmap str str) :
  Batch.set_field (<[key := e]> p) key field value
  = Some (<[key := <[field := value]> e]> p).
Proof.
  unfold Batch.set_field. rewrite lookup_insert_eq, insert_insert_eq.
  reflexivity.
Qed.

(** X12.  A chapter not yet completed whose raw text is absent, empty, or
    starts (after stripping) with the placeholder words is skipped:
    [process_chapter] returns [False], writes no result file, reads the
    clock once, and the ledger entry of the chapter gets the status
    [skipped] with the note and the time of that reading. *)
Theorem process_chapter_skips_missing (isoformat : nat -> str)
    (chapter_num : Z) (w : Batch.world) (p : gmap str (gmap str str))
    (e : gmap str str) :
  Batch.progress_file w = Some p ->
  p !! str_of_Z chapter_num = Some e ->
  e !! u "status" <> Some (u "completed") ->
  raw_missing (Batch.chapters_raw w !! Batch.raw_filename chapter_num) = true ->
  Batch.process_chapter isoformat chapter_num w
  = (Batch.Returned false,
     {| Batch.progress_file :=
          Some (<[str_of_Z chapter_num
                  := skipped_entry (isoformat (Batch.clock w)) e]> p);
        Batch.chapters_raw := Batch.chapters_raw w;
        Batch.result := Batch.result w;
        Batch.clock := S (Batch.clock w) |}).
Proof.
  intros Hfile Hentry Hstatus Hraw. unfold Batch.process_chapter.
  rewrite Hfile, Hentry. cbn [default].
  rewrite bool_decide_eq_false_2 by exact Hstatus.
  rewrite (set_field_present _ _ _ _ _ Hentry), set_field_again.
  unfold Batch.read_chapter_content, Batch.save_progress, Batch.tick.
  cbn [Batch.chapters_raw Batch.progress_file Batch.result Batch.clock].
  unfold raw_missing in Hraw.
  destruct (Batch.chapters_raw w !! Batch.raw_filename chapter_num)
    as [c |]; [rewrite Hraw |];
    rewrite !set_field_again; reflexivity.
Qed.

(** X13.  A chapter not yet completed with a usable raw text is processed:
    the result file holds the heading and the formatted text, the ledger
    entry is [completed] with its creation time, update time and note,
    after three readings of the clock; running [process_chapter] again on
    the resulting state returns [True] and changes nothing. *)
Theorem process_chapter_completes (isoformat : nat -> str)
    (chapter_num : Z) (w : Batch.world) (p : gmap str (gmap str str))
    (e : gmap str str) (content : str) :
  Batch.progress_file w = Some p ->
  p !! str_of_Z chapter_num = Some e ->
  e !! u "status" <> Some (u "completed") ->
  Batch.chapters_raw w !! Batch.raw_filename chapter_num = Some content ->
  raw_missing (Some content) = false ->
  let w' :=
    {| Batch.progress_file :=
         Some (<[str_of_Z chapter_num
                 := completed_entry (isoformat (Batch.clock w))
                      (isoformat (S (Batch.clock w)))
                      (isoformat (S (S (Batch.clock w)))) e]> p);
       Batch.chapters_raw := Batch.chapters_raw w;
       Batch.result :=
         <[Batch.result_filename chapter_num
           := Batch.generate_markdown chapter_num
                (Batch.format_chapter_content content chapter_num)]>
           (Batch.result w);
       Batch.clock := S (S (S (Batch.clock w))) |} in
  Batch.process_chapter isoformat chapter_num w = (Batch.Returned true, w')
  /\ Batch.process_chapter isoformat chapter_num w' = (Batch.Returned true, w').
Proof.
  intros Hfile Hentry Hstatus Hraw Hmiss. cbv zeta. split.
  - unfold Batch.process_chapter.
    rewrite Hfile, Hentry. cbn [default].
    rewrite bool_decide_eq_false_2 by exact Hstatus.
    rewrite (set_field_present _ _ _ _ _ Hentry), set_field_again.
    unfold Batch.read_chapter_content, Batch.save_progress, Batch.tick,
      Batch.write_result.
    cbn [Batch.chapters_raw Batch.progress_file Batch.result Batch.clock].
    rewrite Hraw. unfold raw_missing in Hmiss. rewrite Hmiss.
    rewrite !set_field_again. reflexivity.
  - unfold Batch.process_chapter.
    cbn [Batch.progress_file]. rewrite lookup_insert_eq. cbn [default].
    rewrite bool_decide_eq_true_2; [reflexivity |].
    unfold completed_entry, id.
    rewrite lookup_insert_ne by (vm_compute; discriminate).
    rewrite lookup_insert_ne by (vm_compute; discriminate).
    rewrite lookup_insert_ne by (vm_compute; discriminate).
    apply lookup_insert_eq.
Qed.

Lemma process_chapter_skips_missing_witness :
  Batch.process_chapter x11_clock 4 x11_world
  = (Batch.Returned false,
     {| Batch.progress_file :=
          Some (<[u "4" := skipped_entry (u "0") x11_entry]> x11_ledger);
        Batch.chapters_raw := Batch.chapters_raw x11_world;
        Batch.result := ∅; Batch.clock := 1 |}).
Proof.
  apply (process_chapter_skips_missing x11_clock 4 x11_world x11_ledger
           x11_entry).
  - reflexivity.
  - reflexivity.
  - vm_compute; discriminate.
  - vm_compute; reflexivity.
Defined.

Lemma process_chapter_completes_witness :
  let w' := (Batch.process_chapter x11_clock 3 x11_world).2 in
  Batch.process_chapter x11_clock 3 x11_world = (Batch.Returned true, w')
  /\ Batch.process_chapter x11_clock 3 w' = (Batch.Returned true, w')
  /\ Batch.result w' !! Batch.result_filename 3
     = Some (u "# 第3章" ++ [LF; LF] ++ u "话说当日天色已晚。").
Proof.
  pose proof (process_chapter_completes x11_clock 3 x11_world x11_ledger
                x11_entry (u "第3回" ++ [LF] ++ u "话说当日天色已晚。")) as H.
  cbv zeta in *.
  destruct H as [Ha Hb].
  - reflexivity.
  - reflexivity.
  - vm_compute; discriminate.
  - vm_compute; reflexivity.
  - vm_compute; reflexivity.
  - rewrite Ha. cbn [snd]. split; [reflexivity |]. split; [exact Hb |].
    vm_compute; reflexivity.
Defined.

Lemma range_loop_counts (isoformat : nat -> str) (chapters : list Z) :
  forall s k w s' k' w',
  BatchRange.range_loop isoformat chapters s k w
  = (BatchRange.Counted s' k', w') ->
  (s' + k' = s + k + length chapters)%nat.
Proof.
  induction chapters as [| c rest IH]; intros s k w s' k' w' H.
  - cbn in H. injection H as <- <- _. cbn. lia.
  - cbn [BatchRange.range_loop] in H.
    destruct (Batch.process_chapter isoformat c w) as [[[|] |] w1].
    + apply IH in H. cbn [length]. lia.
    + apply IH in H. cbn [length]. lia.
    + discriminate.
Qed.

Lemma range_loop_all_completed (isoformat : nat -> str) (chapters : list Z) :
  forall s k w, all_completed chapters w ->
  BatchRange.range_loop isoformat chapters s k w
  = (BatchRange.Counted (s + length chapters) k, w).
Proof.
  induction chapters as [| c rest IH]; intros s k w Hall.
  - cbn. rewrite Nat.add_0_r. reflexivity.
  - cbn [BatchRange.range_loop].
    assert (Hc : Batch.process_chapter isoformat c w = (Batch.Returned true, w)).
    { destruct Hall as [p [Hp Hi]].
      destruct (Hi c ltac:(left)) as [e [He Hs]].
      unfold Batch.process_chapter. rewrite Hp, He. cbn [default].
      rewrite bool_decide_eq_true_2 by exact Hs. reflexivity. }
    rewrite Hc. rewrite IH.
    + cbn [length]. f_equal. f_equal. lia.
    + destruct Hall as [p [Hp Hi]]. exists p. split; [exact Hp |].
      intros i Hin. apply Hi. right. exact Hin.
Qed.

(** X14.  [process_chapters_range], when it returns, has counted every
    chapter of the range once, as a success or as a skip; on a range whose
    chapters are all completed it counts them all as successes and changes
    nothing. *)
Theorem process_chapters_range_counts (isoformat : nat -> str)
    (start finish : Z) (w : Batch.world) :
  (forall s k w',
     BatchRange.process_chapters_range isoformat start finish w
     = (BatchRange.Counted s k, w') ->
     (s + k)%nat = Z.to_nat (finish + 1 - start))
  /\ (all_completed (ReusableDriver.range_incl start finish) w ->
      BatchRange.process_chapters_range isoformat start finish w
      = (BatchRange.Counted (Z.to_nat (finish + 1 - start)) 0, w)).
Proof.
  unfold BatchRange.process_chapters_range. split.
  - intros s k w' H. apply range_loop_counts in H.
    unfold ReusableDriver.range_incl in H. rewrite length_seqZ in H. lia.
  - intros H. rewrite range_loop_all_completed by exact H.
    unfold ReusableDriver.range_incl. rewrite length_seqZ. reflexivity.
Qed.

Lemma process_chapters_range_counts_witness :
  BatchRange.process_chapters_range x11_clock 1 2 x14_world
  = (BatchRange.Counted 2 0, x14_world).
Proof.
  apply (process_chapters_range_counts x11_clock 1 2 x14_world).
  exists (<[u "1" := x14_done]> (<[u "2" := x14_done]> ∅)).
  split; [reflexivity |].
  intros i Hi. vm_compute in Hi.
  apply elem_of_cons in Hi as [-> | Hi];
    [| apply list_elem_of_singleton in Hi; subst];
    exists x14_done; split; reflexivity.
Defined.

(** X15.  The first loop of the batch formatter stops at the first line
    that starts with the marker of another chapter: nothing after that line
    has any influence on the lines kept. *)
Theorem keep_lines_stops_at_foreign_marker (chapter_num : Z)
    (pre : list str) (ln : str) (post : list str)
    (skip_initial_forum : bool) (filtered_lines : list str) :
  Batch.is_match (re_search Batch.chapter_marker_re ln) = true ->
  Batch.is_match (re_search (Batch.own_marker_re chapter_num) ln) = false ->
  Batch.keep_lines chapter_num (pre ++ ln :: post) skip_initial_forum
    filtered_lines
  = Batch.keep_lines chapter_num pre skip_initial_forum filtered_lines.
Proof.
  intros Hmark Hown. revert skip_initial_forum filtered_lines.
  induction pre as [| a pre IH]; intros skip fl.
  - cbn [app Batch.keep_lines]. rewrite Hmark, Hown. reflexivity.
  - cbn [app Batch.keep_lines].
    repeat match goal with
           | |- context [if ?b then _ else _] => destruct b
           end; try reflexivity; apply IH.
Qed.

Lemma keep_lines_stops_at_foreign_marker_witness :
  Batch.keep_lines 3 ([u "第3回"; u "话说当日天色已晚。"] ++ u "第4回 次日" :: [u "后文在此。"])
    true []
  = [u "话说当日天色已晚。"].
Proof.
  rewrite (keep_lines_stops_at_foreign_marker 3
             [u "第3回"; u "话说当日天色已晚。"] (u "第4回 次日") [u "后文在此。"]
             true []).
  - vm_compute; reflexivity.
  - vm_compute; reflexivity.
  - vm_compute; reflexivity.
Defined.

Local Open Scope N_scope.

Section Preservation.

Variable P : char -> Prop.

Lemma run_ok (r : regex) : forall i s c k m,
  Forall P s -> caps_ok P c ->
  (forall i' s' c' m', Forall P s' -> caps_ok P c' ->
     k i' s' c' = Some m' -> state_ok P m') ->
  run r i s c k = Some m -> state_ok P m.
Proof.
  induction r as [| p | r1 IH1 r2 IH2 | r1 IH1 r2 IH2 | g lo hi r1 IH1
                  | j r1 IH1 | r1 IH1 | | ml];
    intros i s c k m Hs Hc Hk H.
  - exact (Hk _ _ _ _ Hs Hc H).
  - cbn [run] in H. destruct s as [| a s']; [discriminate |].
    destruct (p a); [| discriminate].
    exact (Hk _ _ _ _ (Forall_inv_tail Hs) Hc H).
  - cbn [run] in H. eapply IH1; [exact Hs | exact Hc | | exact H].
    intros i' s' c' m' Hs' Hc' H'. exact (IH2 _ _ _ _ _ Hs' Hc' Hk H').
  - cbn [run] in H. destruct (run r1 i s c k) as [m1 |] eqn:E1.
    + injection H as <-. exact (IH1 _ _ _ _ _ Hs Hc Hk E1).
    + exact (IH2 _ _ _ _ _ Hs Hc Hk H).
  - assert (Hloop : forall fuel n i s c m,
      Forall P s -> caps_ok P c ->
      (fix loop (fuel n i : nat) (s : str) (c : caps) {struct fuel}
          : option mstate :=
         match fuel with
         | O => None
         | S fuel' =>
           if g then
             match
               (if under hi n
                then run r1 i s c (fun i' s' c' =>
                       if Nat.ltb i i' then loop fuel' (S n) i' s' c'
                       else None)
                else None)
             with
             | Some m => Some m
             | None => if Nat.leb lo n then k i s c else None
             end
           else
             match (if Nat.leb lo n then k i s c else None) with
             | Some m => Some m
             | None =>
               if under hi n
               then run r1 i s c (fun i' s' c' =>
                      if Nat.ltb i i' then loop fuel' (S n) i' s' c'
                      else None)
               else None
             end
         end) fuel n i s c = Some m -> state_ok P m).
    { clear i s c m Hs Hc H.
      induction fuel as [| fuel IHf]; intros n i s c m Hs Hc H;
        [discriminate |].
      cbn [run] in H. destruct g.
      - destruct (under hi n).
        + match type of H with
          | match ?t with _ => _ end = _ => destruct t as [m1 |] eqn:E1
          end.
          * injection H as <-.
            eapply IH1; [exact Hs | exact Hc | | exact E1].
            intros i' s' c' m' Hs' Hc' H'.
            cbv beta in H'. destruct (Nat.ltb i i'); [| discriminate].
            exact (IHf _ _ _ _ _ Hs' Hc' H').
          * destruct (Nat.leb lo n); [| discriminate].
            exact (Hk _ _ _ _ Hs Hc H).
        + cbv beta iota in H. destruct (Nat.leb lo n); [| discriminate].
          exact (Hk _ _ _ _ Hs Hc H).
      - destruct (Nat.leb lo n).
        + destruct (k i s c) as [m1 |] eqn:E1.
          * injection H as <-. exact (Hk _ _ _ _ Hs Hc E1).
          * destruct (under hi n); [| discriminate].
            eapply IH1; [exact Hs | exact Hc | | exact H].
            intros i' s' c' m' Hs' Hc' H'.
            cbv beta in H'. destruct (Nat.ltb i i'); [| discriminate].
            exact (IHf _ _ _ _ _ Hs' Hc' H').
        + cbv beta iota in H. destruct (under hi n); [| discriminate].
          eapply IH1; [exact Hs | exact Hc | | exact H].
          intros i' s' c' m' Hs' Hc' H'.
          cbv beta in H'. destruct (Nat.ltb i i'); [| discriminate].
          exact (IHf _ _ _ _ _ Hs' Hc' H'). }
    exact (Hloop (S (length s)) O i s c m Hs Hc H).
  - cbn [run] in H. eapply IH1; [exact Hs | exact Hc | | exact H].
    intros i' s' c' m' Hs' Hc' H'. eapply Hk; [exact Hs' | | exact H'].
    constructor; [| exact Hc']. cbn [snd]. apply Forall_take. exact Hs.
  - cbn [run] in H.
    destruct (run r1 i s c (fun i' s' c' => Some (i', s', c')))
      as [[[i1 s1] c1] |] eqn:E1; [| discriminate].
    assert (H1 : state_ok P (i1, s1, c1)).
    { eapply IH1; [exact Hs | exact Hc | | exact E1].
      intros i' s' c' m' Hs' Hc' H'. injection H' as <-. split; assumption. }
    exact (Hk _ _ _ _ Hs (proj2 H1) H).
  - cbn [run] in H. destruct (Nat.eqb i 0); [| discriminate].
    exact (Hk _ _ _ _ Hs Hc H).
  - cbn [run] in H. destruct s as [| a s']; [exact (Hk _ _ _ _ Hs Hc H) |].
    match type of H with (if ?b then _ else _) = _ => destruct b end;
      [| discriminate].
    exact (Hk _ _ _ _ Hs Hc H).
Qed.

Lemma match_at_ok (r : regex) (i : nat) (s : str) (m : mstate) :
  Forall P s -> match_at r i s = Some m -> state_ok P m.
Proof.
  intros Hs H. unfold match_at in H.
  eapply (run_ok (Grp 0 r)); [exact Hs | constructor | | exact H].
  intros i' s' c' m' Hs' Hc' H'. injection H' as <-. split; assumption.
Qed.

Lemma search_from_ok (r : regex) (s : str) : forall i st m,
  Forall P s -> search_from r i s = Some (st, m) ->
  state_ok P m /\ Forall P (take (st - i) s).
Proof.
  induction s as [| a s IH]; intros i st m Hs H; cbn [search_from] in H.
  - destruct (match_at r i []) as [m0 |] eqn:E; [| discriminate].
    injection H as <- <-. split; [eapply match_at_ok; eassumption |].
    rewrite take_nil. constructor.
  - destruct (match_at r i (a :: s)) as [m0 |] eqn:E.
    + injection H as <- <-. split; [eapply match_at_ok; eassumption |].
      apply Forall_take. exact Hs.
    + inversion Hs; subst. apply IH in H; [| assumption].
      split; [apply H |]. apply Forall_take. exact Hs.
Qed.

Lemma sub_from_ok (r : regex) (repl : caps -> str) (fuel : nat) :
  (forall c, caps_ok P c -> Forall P (repl c)) ->
  forall i s, Forall P s -> Forall P (sub_from fuel r repl i s).
Proof.
  intros Hrepl. induction fuel as [| fuel IH]; intros i s Hs; [exact Hs |].
  cbn [sub_from].
  destruct (search_from r i s) as [[st [[e s'] c]] |] eqn:E; [| exact Hs].
  apply search_from_ok in E as [[Hs' Hc] Htake]; [| exact Hs].
  cbn [fst snd] in Hs', Hc.
  apply Forall_app. split; [exact Htake |].
  apply Forall_app. split; [apply Hrepl; exact Hc |].
  destruct (Nat.ltb st e); [apply IH; exact Hs' |].
  destruct s' as [| a s'']; [constructor |].
  inversion Hs'; subst. constructor; [assumption | apply IH; assumption].
Qed.

Lemma re_sub_ok (r : regex) (repl : caps -> str) (s : str) :
  (forall c, caps_ok P c -> Forall P (repl c)) ->
  Forall P s -> Forall P (re_sub r repl s).
Proof. intros Hrepl Hs. apply sub_from_ok; assumption. Qed.

Lemma group_text_ok (c : caps) (j : nat) :
  caps_ok P c -> Forall P (group_text c j).
Proof.
  unfold group_text. induction 1 as [| [j' v] c Hv Hc IH]; [constructor |].
  cbn [group]. destruct (Nat.eqb j j'); [exact Hv | exact IH].
Qed.

Lemma dropwhile_ok (q : char -> bool) (s : str) :
  Forall P s -> Forall P (dropwhile q s).
Proof.
  induction 1 as [| a s Ha Hs IH]; [constructor |].
  cbn [dropwhile]. destruct (q a); [exact IH | constructor; assumption].
Qed.

Lemma strip_ok (s : str) : Forall P s -> Forall P (strip s).
Proof.
  intros Hs. unfold strip, rstrip, lstrip.
  apply Forall_rev, dropwhile_ok, Forall_rev, dropwhile_ok. exact Hs.
Qed.

End Preservation.

Lemma replace_fuel_no_cr (fuel : nat) : forall s : str,
  (length s <= fuel)%nat ->
  Forall (fun c => c <> CR) (replace_fuel fuel [CR] [LF] s).
Proof.
  induction fuel as [| fuel IH]; intros s Hlen.
  - destruct s; [constructor | cbn in Hlen; lia].
  - destruct s as [| a s]; [constructor |].
    cbn [replace_fuel startswith]. cbn [length] in Hlen.
    destruct (CR =? a) eqn:E; cbn [andb].
    + match goal with
      | |- context [startswith ?x ?y] =>
        replace (startswith x y) with true by (destruct x; reflexivity)
      end.
      cbn [length drop app]. rewrite drop_0.
      constructor; [discriminate |]. apply IH. lia.
    + constructor; [| apply IH; lia].
      intros ->. rewrite N.eqb_refl in E. discriminate.
Qed.

Lemma replace_no_cr (s : str) : Forall (fun c => c <> CR) (replace [CR] [LF] s).
Proof. apply replace_fuel_no_cr. reflexivity. Qed.

Lemma search_from_cls (p : char -> bool) (s : str) : forall i st e s' c,
  search_from (Cls p) i s = Some (st, (e, s', c)) ->
  (i <= st)%nat /\ Forall (fun a => p a = false) (take (st - i)%nat s)
  /\ Nat.ltb st e = true /\ (length s' < length s)%nat.
Proof.
  induction s as [| a s IH]; intros i st e s' c H.
  - discriminate.
  - cbn [search_from match_at run] in H. destruct (p a) eqn:Ea.
    + injection H as <- <- <- <-.
      replace (i - i)%nat with O by lia.
      repeat split; [lia | constructor | apply Nat.ltb_lt; lia | cbn; lia].
    + apply IH in H as (Hi & Htake & Hlt & Hlen).
      replace (st - i)%nat with (S (st - S i)) by lia.
      repeat split; [lia | | exact Hlt | cbn; lia].
      cbn [take]. constructor; assumption.
Qed.

Lemma sub_from_cls_erase (p : char -> bool) (fuel : nat) : forall i s,
  (length s < fuel)%nat ->
  Forall (fun a => p a = false) (sub_from fuel (Cls p) erase i s).
Proof.
  induction fuel as [| fuel IH]; intros i s Hlen; [lia |].
  cbn [sub_from].
  destruct (search_from (Cls p) i s) as [[st [[e s'] c]] |] eqn:E.
  - apply search_from_cls in E as (Hi & Htake & Hlt & Hlen').
    rewrite Hlt. apply Forall_app. split; [exact Htake |].
    unfold erase. cbn [app]. apply IH. lia.
  - clear Hlen IH. revert i E.
    induction s as [| a s IHs]; intros i E; [constructor |].
    cbn [search_from match_at run] in E. destruct (p a) eqn:Ea;
      [discriminate |].
    constructor; [exact Ea | exact (IHs _ E)].
Qed.

Lemma re_sub_control (s : str) :
  Forall (fun a => control a = false) (re_sub control_re erase s).
Proof. apply (sub_from_cls_erase control). lia. Qed.

Lemma erase_ok (P : char -> Prop) (c : caps) : caps_ok P c -> Forall P (erase c).
Proof. intros _. constructor. Qed.

(** X16.  What [clean_text] writes is a body followed by one line feed;
    the body neither starts nor ends with white space, and the text written
    holds no carriage return and none of the control characters of the
    class the normalizer erases. *)
Theorem clean_text_output (content : str) :
  exists body,
    clean_text content = body ++ [LF]
    /\ trimmed body
    /\ Forall clean_char (clean_text content).
Proof.
  unfold clean_text.
  set (s5 := replace [CR] [LF] _).
  assert (H5 : Forall (fun c => c <> CR) s5) by apply replace_no_cr.
  clearbody s5.
  set (s7 := re_sub blank_run_re _ (re_sub trailing_blank_re erase s5)).
  assert (H7 : Forall (fun c => c <> CR) s7).
  { apply re_sub_ok; [intros c _; repeat constructor; discriminate |].
    apply re_sub_ok; [apply erase_ok | exact H5]. }
  clearbody s7. clear s5 H5.
  set (s8 := re_sub control_re erase s7).
  assert (H8 : Forall clean_char s8).
  { apply Forall_and. split.
    - apply re_sub_ok; [apply erase_ok | exact H7].
    - apply re_sub_control. }
  clearbody s8. clear s7 H7.
  assert (HLF : clean_char LF) by (split; [discriminate | reflexivity]).
  set (s10 := re_sub after_marker_re _ _).
  assert (H10 : Forall clean_char s10).
  { apply re_sub_ok.
    - intros c Hc. apply Forall_app. split; [apply group_text_ok, Hc |].
      constructor; [exact HLF | apply group_text_ok, Hc].
    - apply re_sub_ok; [| exact H8].
      intros c Hc. apply Forall_app. split; [apply group_text_ok, Hc |].
      constructor; [exact HLF |].
      constructor; [exact HLF | apply group_text_ok, Hc]. }
  clearbody s10. exists (strip s10).
  split; [reflexivity |]. split; [apply strip_trimmed |].
  apply Forall_app. split; [apply strip_ok, H10 | constructor; [exact HLF | constructor]].
Qed.

Lemma dropwhile_all (p : char -> bool) (s : str) :
  forallb p s = true -> dropwhile p s = [].
Proof.
  induction s as [| a s IH]; [reflexivity |].
  cbn [forallb dropwhile]. intros H. apply andb_prop in H as [-> H]. auto.
Qed.

Lemma strip_blank (s : str) : forallb isspace s = true -> strip s = [].
Proof.
  intros H. unfold strip, rstrip, lstrip. rewrite (dropwhile_all _ _ H).
  reflexivity.
Qed.

Lemma dropwhile_nil (p : char -> bool) (s : str) :
  dropwhile p s = [] -> forallb p s = true.
Proof.
  induction s as [| a s IH]; [reflexivity |].
  cbn [forallb dropwhile]. destruct (p a); [exact IH | discriminate].
Qed.

Lemma strip_nil_blank (s : str) : strip s = [] -> forallb isspace s = true.
Proof.
  unfold strip, rstrip, lstrip. intros H.
  apply (f_equal (@rev char)) in H. rewrite rev_involutive in H.
  cbn [rev] in H. apply dropwhile_nil in H.
  apply dropwhile_nil.
  rewrite forallb_forall in H.
  destruct (dropwhile isspace s) as [| a v] eqn:E; [reflexivity |].
  pose proof (dropwhile_head_ok s) as Hh. rewrite E in Hh. cbn in Hh.
  rewrite (H a) in Hh; [discriminate |].
  apply in_rev. rewrite rev_involutive. left. reflexivity.
Qed.

Lemma split_char_blank (s : str) :
  Forall (fun l => forallb isspace l = true) (split_char LF s) ->
  forallb isspace s = true.
Proof.
  induction s as [| a s IH]; [reflexivity |].
  cbn [split_char forallb]. destruct (a =? LF) eqn:E.
  - apply N.eqb_eq in E as ->. intros H. apply Forall_inv_tail in H.
    rewrite (IH H). reflexivity.
  - destruct (split_char LF s) as [| cur rest].
    + intros H. apply Forall_inv in H. cbn [forallb] in H.
      apply andb_prop in H as [-> _]. apply IH. constructor.
    + intros H. inversion H as [| ? ? H1 H2]; subst. cbn [forallb] in H1.
      apply andb_prop in H1 as [-> H1]. apply IH. constructor; assumption.
Qed.

Lemma visible_line (s : str) :
  strip s <> [] -> Exists (fun l => strip l <> []) (split_char LF s).
Proof.
  intros H.
  assert (Hdec : forall l : str, {strip l = nil} + {strip l <> nil}).
  { intros l. destruct (strip l); [left; reflexivity | right; discriminate]. }
  destruct (List.Forall_Exists_dec (fun l => strip l = []) Hdec
              (split_char LF s)) as [HF | HE]; [| exact HE].
  exfalso. apply H, strip_blank, split_char_blank.
  eapply Forall_impl; [exact HF |].
  intros l Hl. apply strip_nil_blank, Hl.
Qed.

Lemma merge_lines_shape (lines : list str) : forall cur ps,
  Forall sentence_ok cur -> Forall sentence_ok ps ->
  Forall sentence_ok (Batch.merge_lines lines cur ps).1
  /\ Forall sentence_ok (Batch.merge_lines lines cur ps).2
  /\ (cur <> [] \/ ps <> [] \/ Exists (fun l => strip l <> []) lines ->
      (Batch.merge_lines lines cur ps).1 <> []
      \/ (Batch.merge_lines lines cur ps).2 <> []).
Proof.
  induction lines as [| ln rest IH]; intros cur ps Hcur Hps.
  - cbn [Batch.merge_lines fst snd]. repeat split; [assumption .. |].
    intros [H | [H | H]]; [auto | auto | inversion H].
  - cbn [Batch.merge_lines].
    assert (Hjoin : cur <> [] -> sentence_ok (join (u " ") cur)).
    { intros Hne. apply join_trimmed; assumption. }
    assert (Hsnoc : forall l : list str, l ++ [join (u " ") cur] <> []).
    { intros l E. apply app_eq_nil in E as [_ E]. discriminate. }
    destruct (strip ln) as [| a w] eqn:Eln.
    + cbn [Batch.nonempty Reusable.nonempty negb].
      destruct cur as [| c0 cur'].
      * destruct (IH [] ps Hcur Hps) as (H1 & H2 & H3).
        repeat split; [assumption .. |].
        intros [H | [H | H]]; [congruence | auto |].
        inversion H as [? ? Hx | ? ? Hx]; subst; [congruence | auto].
      * assert (Hps' : Forall sentence_ok
                         (ps ++ [join (u " ") (c0 :: cur')])).
        { apply Forall_app. split; [assumption |].
          constructor; [apply Hjoin; discriminate | constructor]. }
        destruct (IH [] _ ltac:(constructor) Hps') as (H1 & H2 & H3).
        repeat split; [assumption .. |].
        intros _. apply H3. right. left. apply Hsnoc.
    + cbn [Batch.nonempty Reusable.nonempty negb].
      assert (Hln : sentence_ok (a :: w)).
      { split; [discriminate |]. rewrite <- Eln. apply strip_trimmed. }
      assert (Hcur' : Forall sentence_ok (cur ++ [a :: w])).
      { apply Forall_app. split; [assumption |].
        constructor; [exact Hln | constructor]. }
      assert (Hne' : cur ++ [a :: w] <> []).
      { intros E. apply app_eq_nil in E as [_ E]. discriminate. }
      destruct cur as [| c0 cur'].
      * destruct (IH _ ps Hcur' Hps) as (H1 & H2 & H3).
        repeat split; [assumption .. |]. intros _. apply H3. left. exact Hne'.
      * destruct (Batch.ends_with_stop (c0 :: cur')
                  && Nat.ltb 10 (length (a :: w))).
        -- assert (Hps' : Forall sentence_ok
                            (ps ++ [join (u " ") (c0 :: cur')])).
           { apply Forall_app. split; [assumption |].
             constructor; [apply Hjoin; discriminate | constructor]. }
           destruct (IH [a :: w] _ ltac:(constructor; [exact Hln | constructor])
                       Hps') as (H1 & H2 & H3).
           repeat split; [assumption .. |].
           intros _. apply H3. left. discriminate.
        -- destruct (IH _ ps Hcur' Hps) as (H1 & H2 & H3).
           repeat split; [assumption .. |].
           intros _. apply H3. left. exact Hne'.
Qed.

Lemma merged_paragraphs_shape (content : str) (chapter_num : Z) :
  Forall sentence_ok (merged_paragraphs content chapter_num)
  /\ (strip (kept_text content chapter_num) <> [] ->
      merged_paragraphs content chapter_num <> []).
Proof.
  unfold merged_paragraphs.
  destruct (merge_lines_shape (split_char LF (kept_text content chapter_num))
              [] [] ltac:(constructor) ltac:(constructor)) as (H1 & H2 & H3).
  destruct (Batch.merge_lines _ [] []) as [cur ps]. cbn [fst snd] in *.
  destruct cur as [| c0 cur'].
  - split; [exact H2 |]. intros Hv.
    destruct H3 as [H | H]; [right; right; apply visible_line, Hv | | exact H].
    congruence.
  - split.
    + apply Forall_app. split; [exact H2 |].
      constructor; [| constructor]. apply join_trimmed; [discriminate | exact H1].
    + intros _ E. apply app_eq_nil in E as [_ E]. discriminate.
Qed.

(** X17.  The batch formatter returns the empty text when the lines it
    keeps hold only white space.  Otherwise it returns its paragraphs joined
    by one blank line; there is at least one paragraph and none is empty or
    starts or ends with white space, so the fallback to the stripped text
    is never taken. *)
Theorem format_chapter_content_paragraphs (content : str) (chapter_num : Z) :
  if Batch.nonempty (strip (kept_text content chapter_num))
  then merged_paragraphs content chapter_num <> []
       /\ Forall sentence_ok (merged_paragraphs content chapter_num)
       /\ Batch.format_chapter_content content chapter_num
          = join [LF; LF] (merged_paragraphs content chapter_num)
  else Batch.format_chapter_content content chapter_num = [].
Proof.
  destruct (merged_paragraphs_shape content chapter_num) as [Hall Hne].
  unfold Batch.format_chapter_content.
  fold (kept_text content chapter_num).
  destruct (Batch.nonempty (strip (kept_text content chapter_num))) eqn:Ev;
    [| reflexivity].
  cbn [negb].
  assert (Hne' : merged_paragraphs content chapter_num <> []).
  { apply Hne. intros E. rewrite E in Ev. discriminate. }
  split; [exact Hne' |]. split; [exact Hall |].
  unfold merged_paragraphs in *.
  destruct (Batch.merge_lines _ [] []) as [cur ps].
  set (paragraphs := match cur with [] => ps | _ => _ end) in *.
  destruct (join_trimmed [LF; LF] paragraphs Hne' Hall) as [Hj Ht].
  rewrite (strip_id _ Ht).
  destruct (join [LF; LF] paragraphs); [congruence | reflexivity].
Qed.
